(** * Folder-scoped preference resolution (Theia, [FoldersPreferencesProvider])

    A shallow embedding of
    [packages/preferences/src/browser/folders-preferences-provider.ts]:
    the registry of per-folder preference providers, candidate selection,
    single-value resolution, the merged preference map and write routing.

    The collaborators of the class (URI parsing, path relativity, the
    [PreferenceConfigurations] service, the provider factory and the
    providers themselves) live in other files; they are taken here as
    records of functions and every result is stated for arbitrary values
    of them.  *)

From Stdlib Require Import ZArith Lia Ascii String.
From Equations Require Import Equations.
From stdpp Require Import base option list gmap strings.

Local Open Scope string_scope.
Local Open Scope Z_scope.
Local Open Scope list_scope.

Set Default Proof Using "Type".

(* ================================================================== *)
(** ** Values, URIs and paths *)
(* ================================================================== *)

(** The payload of a preference ([any] in the source).  [undefined] is the
    absence of a value and is modelled by [option]. *)
Inductive any : Type :=
| JNull
| JBool (b : bool)
| JNum (n : Z)
| JStr (s : string).

(** A [Path] is only ever handed to [relativity]. *)
Definition Path : Type := string.

(** The two observations the class makes of a [URI]: [toString()] and
    [.path].  A URI object is always truthy; an absent URI is [None]. *)
Record URI : Type := mkURI { toString : string; path : Path }.

(** [new URI(s)] and [Path.relativity], from [@theia/core]. *)
Record UriLib : Type := {
  new_URI : string -> URI;
  relativity : Path -> Path -> Z;
}.

(** JavaScript truthiness of a [string | undefined]: [undefined] and the
    empty string are falsy. *)
Definition truthy (s : option string) : bool :=
  match s with
  | None => false
  | Some s => negb (bool_decide (s = ""))
  end.

(* ================================================================== *)
(** ** Insertion-ordered maps and sets (ES2015 [Map] and [Set]) *)
(* ================================================================== *)

Module JsMap.
(** Entries in iteration (insertion) order. *)
Abbreviation t V := (list (string * V)).

Section Ops.
Context {V : Type}.

Fixpoint get (m : t V) (k : string) : option V :=
  match m with
  | [] => None
  | (k', v) :: m' => if decide (k' = k) then Some v else get m' k
  end.

Definition has (m : t V) (k : string) : bool :=
  match get m k with Some _ => true | None => false end.

(** [set] keeps the position of an existing key and appends a new one. *)
Fixpoint set (m : t V) (k : string) (v : V) : t V :=
  match m with
  | [] => [(k, v)]
  | (k', v') :: m' =>
      if decide (k' = k) then (k', v) :: m' else (k', v') :: set m' k v
  end.

Fixpoint delete (m : t V) (k : string) : t V :=
  match m with
  | [] => []
  | (k', v) :: m' =>
      if decide (k' = k) then delete m' k else (k', v) :: delete m' k
  end.

Definition keys (m : t V) : list string := m.*1.
Definition values (m : t V) : list V := m.*2.
End Ops.
End JsMap.

Module JsSet.
(** Elements in iteration (insertion) order. *)
Abbreviation t := (list string).

Definition has (s : t) (k : string) : bool := bool_decide (k ∈ s).

Definition add (s : t) (k : string) : t :=
  if has s k then s else s ++ [k].

Fixpoint delete (s : t) (k : string) : t :=
  match s with
  | [] => []
  | k' :: s' => if decide (k' = k) then delete s' k else k' :: delete s' k
  end.

(** [new Set(iterable)] *)
Definition of_list (l : list string) : t := foldl add [] l.
End JsSet.

(* ================================================================== *)
(** ** Promises, observed at one instant *)
(* ================================================================== *)

(** The settlement state of a promise.  The combinators below give the
    state of a derived promise from the states of its inputs once all
    pending reactions have run. *)
Inductive Promise (A : Type) : Type :=
| Pending
| Fulfilled (a : A)
| Rejected (e : string).
Arguments Pending {A}.
Arguments Fulfilled {A} a.
Arguments Rejected {A} e.

Definition settled {A} (p : Promise A) : bool :=
  match p with Pending => false | _ => true end.

(** [p.catch(h)] *)
Definition promise_catch {A} (h : string -> A) (p : Promise A) : Promise A :=
  match p with
  | Rejected e => Fulfilled (h e)
  | _ => p
  end.

(** [p.then(f)] *)
Definition promise_then {A B} (f : A -> B) (p : Promise A) : Promise B :=
  match p with
  | Pending => Pending
  | Fulfilled a => Fulfilled (f a)
  | Rejected e => Rejected e
  end.

(** [Promise.all(ps)]: rejected as soon as one input is, fulfilled when all
    inputs are, pending otherwise. *)
Fixpoint promise_all {A} (ps : list (Promise A)) : Promise (list A) :=
  match ps with
  | [] => Fulfilled []
  | p :: ps' =>
      match p, promise_all ps' with
      | Rejected e, _ => Rejected e
      | _, Rejected e => Rejected e
      | Fulfilled a, Fulfilled l => Fulfilled (a :: l)
      | _, _ => Pending
      end
  end.

(* ================================================================== *)
(** ** Collaborators *)
(* ================================================================== *)

(** A workspace root ([FileStat]); only [uri] is read. *)
Record FileStat : Type := { uri : string }.

(** What [provider.resolve] and the aggregate [resolve] return:
    [{ value?, configUri? }]. *)
Record Resolved : Type := mkResolved { value : option any; configUri : option URI }.

(** The capability set of one [FolderPreferenceProvider] that the class
    consumes.  [getConfigUri None] is the call without argument;
    [setPreference] gives the state of the promise the write returns
    (fulfilled with a boolean, rejected, or never settled); [ready] is the
    state of the provider's readiness promise. *)
Module FolderPreferenceProvider.
Record t : Type := {
  folderUri : URI;
  getConfigUri : option string -> option URI;
  resolve : string -> option string -> Resolved;
  getPreferences : gmap string any;
  setPreference : string -> any -> option string -> Promise bool;
  ready : Promise unit;
}.
End FolderPreferenceProvider.
Abbreviation Provider := FolderPreferenceProvider.t.

Record FolderPreferenceProviderOptions : Type := {
  folder : FileStat;
  optConfigUri : URI;
}.

(** [PreferenceConfigurations].  The URI arguments may be [undefined] at
    run time, hence [option URI]. *)
Record PreferenceConfigurations : Type := {
  getUris : URI -> list URI;
  isConfigUri : option URI -> bool;
  getName : option URI -> string;
  getPath : option URI -> string;
  isSectionName : string -> bool;
  getConfigName : string;
}.

(** [WorkspaceService]: the initial-enumeration promise and the roots
    currently reported. *)
Record WorkspaceService : Type := {
  roots : Promise (list FileStat);
  tryGetRoots : list FileStat;
}.

(** [s.split('.', 1)[0]]: the text before the first dot, all of [s] when
    it has none. *)
Fixpoint split_first_dot (s : string) : string :=
  match s with
  | EmptyString => EmptyString
  | String c s' =>
      if Ascii.eqb c "."%char then EmptyString else String c (split_first_dot s')
  end.

(* ================================================================== *)
(** ** The class [FoldersPreferencesProvider] *)
(* ================================================================== *)

Module FoldersPreferencesProvider.
Module P := FolderPreferenceProvider.

(** The fields the methods below read and write: the provider map, and the
    providers whose readiness [init] waits for ([None] until [init] has
    passed [await this.workspaceService.roots]). *)
Record t : Type := {
  providers : JsMap.t Provider;
  readyPromises : option (list Provider);
}.

(** A freshly constructed instance. *)
Definition fresh : t := {| providers := []; readyPromises := None |}.

(** What one run of [updateProviders] did: the providers it created through
    the factory and the providers it disposed, both in order. *)
Record Reconciled : Type := {
  after : JsMap.t Provider;
  created : list Provider;
  disposed : list Provider;
}.

(** The anonymous [{ relativity, uri? }] of [getProviders]. *)
Record FolderPick : Type := { pick_relativity : Z; pick_uri : option string }.

(** The three closures [setPreference] queues for a provider: the one
    pushed by the [for] loop, the one it pushes, and the one that one
    pushes. *)
Inductive Closure : Type :=
| RoundA (provider : Provider)
| RoundB (provider : Provider)
| RoundC (provider : Provider).

(** The state of the promise [setPreference] returns, with the providers
    whose write was invoked (in order) and the number of closures
    called. *)
Record Written : Type := {
  result : Promise bool;
  attempts : list Provider;
  calls : nat;
}.

Section Methods.
Context (lib : UriLib) (configurations : PreferenceConfigurations).
Context (folderPreferenceProviderFactory : FolderPreferenceProviderOptions -> Provider).

(** [createProvider]; the registration with [toDispose] and the event
    forwarding have no effect on the methods modelled here. *)
Definition createProvider (options : FolderPreferenceProviderOptions) : Provider :=
  folderPreferenceProviderFactory options.

(** Body of the inner [for] loop of [updateProviders]. *)
Definition visit (folder : FileStat)
    (acc : JsSet.t * JsMap.t Provider * list Provider) (configUri : URI)
    : JsSet.t * JsMap.t Provider * list Provider :=
  let '(toDelete, providers, created) := acc in
  let key := toString configUri in
  let toDelete := JsSet.delete toDelete key in
  if JsMap.has providers key then (toDelete, providers, created)
  else
    let provider := createProvider {| folder := folder; optConfigUri := configUri |} in
    (toDelete, JsMap.set providers key provider, created ++ [provider]).

(** Body of the outer [for] loop. *)
Definition visit_folder (acc : JsSet.t * JsMap.t Provider * list Provider)
    (folder : FileStat) : JsSet.t * JsMap.t Provider * list Provider :=
  foldl (visit folder) acc (getUris configurations (new_URI lib (uri folder))).

(** Body of the [for (const key of toDelete)] loop. *)
Definition sweep (acc : JsMap.t Provider * list Provider) (key : string)
    : JsMap.t Provider * list Provider :=
  let '(providers, disposed) := acc in
  match JsMap.get providers key with
  | Some provider => (JsMap.delete providers key, disposed ++ [provider])
  | None => acc
  end.

Definition updateProviders (ws : WorkspaceService) (providers : JsMap.t Provider)
    : Reconciled :=
  let roots := tryGetRoots ws in
  let toDelete := JsSet.of_list (JsMap.keys providers) in
  let '(toDelete, providers, created) :=
    foldl visit_folder (toDelete, providers, []) roots in
  let '(providers, disposed) := foldl sweep (providers, []) toDelete in
  {| after := providers; created := created; disposed := disposed |}.

(** The listener installed by [init]:
    [onWorkspaceChanged(() => this.updateProviders())]. *)
Definition onWorkspaceChanged (ws : WorkspaceService) (self : t) : t :=
  {| providers := after (updateProviders ws (providers self));
     readyPromises := readyPromises self |}.

(** [init], up to the point where the ready promises are collected. *)
Definition init (ws : WorkspaceService) (self : t) : t :=
  match roots ws with
  | Fulfilled _ =>
      let providers := after (updateProviders ws (providers self)) in
      {| providers := providers;
         readyPromises := Some (JsMap.values providers) |}
  | _ => self
  end.

(** [provider.ready.catch(e => console.error(e))] *)
Definition caught (provider : Provider) : Promise unit :=
  promise_catch (fun _ => tt) (P.ready provider).

(** The errors [console.error] has printed. *)
Definition logged (self : t) : list string :=
  match readyPromises self with
  | Some ps =>
      omap (fun p => match P.ready p with Rejected e => Some e | _ => None end) ps
  | None => []
  end.

(** The state of [this._ready.promise]: it is resolved by the reaction
    [Promise.all(readyPromises).then(() => this._ready.resolve())] and by
    nothing else. *)
Definition ready (self : t) : Promise unit :=
  match readyPromises self with
  | Some ps =>
      match promise_all (caught <$> ps) with
      | Fulfilled _ => Fulfilled tt
      | _ => Pending
      end
  | None => Pending
  end.

Fixpoint getConfigUri_from (ps : list Provider) (resourceUri : option string)
    : option URI :=
  match ps with
  | [] => None
  | provider :: ps' =>
      let configUri := P.getConfigUri provider resourceUri in
      if isConfigUri configurations configUri then configUri
      else getConfigUri_from ps' resourceUri
  end.

Definition getConfigUri (self : t) (resourceUri : option string) : option URI :=
  getConfigUri_from (JsMap.values (providers self)) resourceUri.

Definition getDomain (ws : WorkspaceService) (self : t) : list string :=
  uri <$> tryGetRoots ws.

(** Body of the [for] loop of [getProviders]. *)
Definition group (resourcePath : Path)
    (acc : FolderPick * JsMap.t (list Provider)) (provider : Provider)
    : FolderPick * JsMap.t (list Provider) :=
  let '(folder, providers) := acc in
  let uri := toString (P.folderUri provider) in
  let folderProviders := default [] (JsMap.get providers uri) ++ [provider] in
  let providers := JsMap.set providers uri folderProviders in
  let relativity := relativity lib (path (P.folderUri provider)) resourcePath in
  if (0 <=? relativity) && (pick_relativity folder <=? relativity)
  then ({| pick_relativity := relativity; pick_uri := Some uri |}, providers)
  else (folder, providers).

Definition getProviders (self : t) (resourceUri : option string) : list Provider :=
  match resourceUri with
  | Some r =>
      if truthy resourceUri then
        let resourcePath := path (new_URI lib r) in
        let '(folder, providers) :=
          foldl (group resourcePath)
            ({| pick_relativity := -1; pick_uri := None |}, [])
            (JsMap.values (providers self)) in
        if truthy (pick_uri folder) then
          match pick_uri folder with
          | Some u => default [] (JsMap.get providers u)
          | None => []
          end
        else []
      else []
  | None => []
  end.

Fixpoint resolve_from (ps : list Provider) (preferenceName : string)
    (resourceUri : option string) : Resolved :=
  match ps with
  | [] => mkResolved None None
  | provider :: ps' =>
      let r := P.resolve provider preferenceName resourceUri in
      match value r, configUri r with
      | Some v, Some u => mkResolved (Some v) (Some u)
      | _, _ => resolve_from ps' preferenceName resourceUri
      end
  end.

Definition resolve (self : t) (preferenceName : string)
    (resourceUri : option string) : Resolved :=
  resolve_from (getProviders self resourceUri) preferenceName resourceUri.

(** Body of the [for] loop of [getPreferences]; [Object.assign(result,
    preferences)] lets the keys of [preferences] overwrite [result]. *)
Definition collect (resourceUri : option string)
    (acc : gmap string any * gset string) (provider : Provider)
    : gmap string any * gset string :=
  let '(result, collectedConfigs) := acc in
  match P.getConfigUri provider resourceUri with
  | Some configUri =>
      let configName := getName configurations (Some configUri) in
      if decide (configName ∈ collectedConfigs) then acc
      else (P.getPreferences provider ∪ result, {[configName]} ∪ collectedConfigs)
  | None => acc
  end.

Definition getPreferences (self : t) (resourceUri : option string)
    : gmap string any :=
  (foldl (collect resourceUri) (∅, ∅) (reverse (getProviders self resourceUri))).1.

(** Body of the first [for] loop of [setPreference]: the reference path is
    set once, by the first provider with a config URI for the resource, and
    a closure is queued for every provider of the target config name. *)
Definition enqueue (resourceUri : option string) (configName : string)
    (acc : option string * list Closure) (provider : Provider)
    : option string * list Closure :=
  let '(configPath, iterator) := acc in
  let configPath :=
    match configPath with
    | None =>
        match P.getConfigUri provider resourceUri with
        | Some configUri => Some (getPath configurations (Some configUri))
        | None => None
        end
    | Some _ => configPath
    end in
  if decide (getName configurations (P.getConfigUri provider None) = configName)
  then (configPath, iterator ++ [RoundA provider])
  else (configPath, iterator).

(** Calling a queued closure: the provider it returns, if any, and the
    closures it pushes on the queue.  [configPath] is the value the
    variable has when the closures run, that is, after the first loop. *)
Definition call (resourceUri : option string) (configPath : option string)
    (next : Closure) : option Provider * list Closure :=
  match next with
  | RoundA provider =>
      match P.getConfigUri provider resourceUri with
      | Some _ => (Some provider, [])
      | None => (None, [RoundB provider])
      end
  | RoundB provider =>
      if decide (Some (getPath configurations (P.getConfigUri provider None)) = configPath)
      then (Some provider, [])
      else (None, [RoundC provider])
  | RoundC provider => (Some provider, [])
  end.

(** Closures still to be called, counting the ones a closure can push. *)
Definition pending (next : Closure) : nat :=
  match next with
  | RoundA _ => 3
  | RoundB _ => 2
  | RoundC _ => 1
  end%nat.

Definition backlog (iterator : list Closure) : nat :=
  foldr (fun next n => (pending next + n)%nat) 0%nat iterator.

(** The [while (next)] loop of [setPreference].  The write is awaited
    without a [try]: a write that resolves to [true] ends the call with
    [true], one that resolves to [false] lets the loop go on, one that
    rejects ends the call with its rejection, and one that never settles
    leaves the call pending. *)
Equations? drain (preferenceName : string) (v : any) (resourceUri : option string)
    (configPath : option string) (iterator : list Closure) : Written
    by wf (backlog iterator) lt :=
  drain preferenceName v resourceUri configPath [] :=
    {| result := Fulfilled false; attempts := []; calls := 0 |};
  drain preferenceName v resourceUri configPath (next :: iterator)
    with Equations.Prop.Logic.inspect (call resourceUri configPath next) := {
    | exist _ (Some provider, pushed) Hcall =>
        match P.setPreference provider preferenceName v resourceUri with
        | Fulfilled true =>
            {| result := Fulfilled true; attempts := [provider]; calls := 1 |}
        | Fulfilled false =>
            let w := drain preferenceName v resourceUri configPath (iterator ++ pushed) in
            {| result := result w; attempts := provider :: attempts w;
               calls := S (calls w) |}
        | Rejected e =>
            {| result := Rejected e; attempts := [provider]; calls := 1 |}
        | Pending =>
            {| result := Pending; attempts := [provider]; calls := 1 |}
        end;
    | exist _ (None, pushed) Hcall =>
        let w := drain preferenceName v resourceUri configPath (iterator ++ pushed) in
        {| result := result w; attempts := attempts w; calls := S (calls w) |} }.
Proof.
  all: assert (∀ q1 q2, backlog (q1 ++ q2) = (backlog q1 + backlog q2)%nat) as ->
    by (intros q1 q2; induction q1 as [|c q1 IH]; simpl; [done | rewrite IH; lia]).
  all: destruct next as [p|p|p]; simpl in *;
    repeat case_match; simplify_eq; simpl; lia.
Qed.

Definition setPreference (self : t) (preferenceName : string) (v : any)
    (resourceUri : option string) : Written :=
  let sectionName := split_first_dot preferenceName in
  let configName :=
    if isSectionName configurations sectionName then sectionName
    else getConfigName configurations in
  let providers := getProviders self resourceUri in
  let '(configPath, iterator) :=
    foldl (enqueue resourceUri configName) (None, []) providers in
  drain preferenceName v resourceUri configPath iterator.

End Methods.
End FoldersPreferencesProvider.

(* ================================================================== *)
(** ** A concrete workspace

    One instance of every collaborator, used to run the methods on
    explicit inputs. *)
(* ================================================================== *)

Module Sample.
Module P := FolderPreferenceProvider.
Module F := FoldersPreferencesProvider.

(** [split_slash cur s]: the segments of [cur ++ s] between slashes. *)
Fixpoint split_slash (cur s : string) : list string :=
  match s with
  | EmptyString => [cur]
  | String c s' =>
      if Ascii.eqb c "/"%char then cur :: split_slash "" s'
      else split_slash (cur +:+ String c "") s'
  end.

Fixpoint strip_prefix (p s : string) : option string :=
  match p, s with
  | EmptyString, _ => Some s
  | String a p', String b s' => if Ascii.eqb a b then strip_prefix p' s' else None
  | String _ _, EmptyString => None
  end.

(** The text after the first ["://"]. *)
Fixpoint after_scheme (s : string) : string :=
  match s with
  | EmptyString => EmptyString
  | String c s' =>
      match strip_prefix "://" s with
      | Some rest => rest
      | None => after_scheme s'
      end
  end.

(** The text from the first slash on. *)
Fixpoint from_slash (s : string) : string :=
  match s with
  | EmptyString => EmptyString
  | String c s' => if Ascii.eqb c "/"%char then s else from_slash s'
  end.

(** [scheme://authority/path]: the path starts at the first slash after the
    authority. *)
Definition parse (s : string) : URI :=
  {| toString := s; path := from_slash (after_scheme s) |}.

(** The number of segments of the resource below the folder, -1 when the
    resource is not below it. *)
Definition below (folderPath resourcePath : Path) : Z :=
  if decide (folderPath = resourcePath) then 0
  else
    match strip_prefix (folderPath +:+ "/") resourcePath with
    | Some rest => Z.of_nat (length (split_slash "" rest))
    | None => -1
    end.

Definition lib : UriLib := {| new_URI := parse; relativity := below |}.

(** The last segment up to its first dot, and the segment before it. *)
Definition stem (u : URI) : string :=
  split_first_dot (List.last (split_slash "" (toString u)) "").

Definition directory (u : URI) : string :=
  List.last (List.removelast (split_slash "" (toString u))) "".

(** Two locations per folder, as [.theia] and [.vscode] in Theia. *)
Definition configurations : PreferenceConfigurations := {|
  getUris := fun folder =>
    [ parse (toString folder +:+ "/.theia/settings.json");
      parse (toString folder +:+ "/.vscode/settings.json") ];
  isConfigUri := fun u =>
    match u with
    | Some u => bool_decide (stem u ∈ ["settings"; "launch"])
    | None => false
    end;
  getName := fun u => from_option stem "" u;
  getPath := fun u => from_option directory "" u;
  isSectionName := fun s => bool_decide (s ∈ ["launch"; "tasks"]);
  getConfigName := "settings";
|}.

(** A provider with fixed answers: [applies] tells whether it has a config
    URI for a resource, [writable] what its write resolves to. *)
Definition provider (folderUri configUri : string) (applies : bool)
    (preferences : gmap string any) (writable : bool) (ready : Promise unit)
    : Provider := {|
  P.folderUri := parse folderUri;
  P.getConfigUri := fun r =>
    if truthy r then (if applies then Some (parse configUri) else None)
    else Some (parse configUri);
  P.resolve := fun name r =>
    if truthy r && negb applies then mkResolved None None
    else mkResolved (preferences !! name) (Some (parse configUri));
  P.getPreferences := preferences;
  P.setPreference := fun _ _ _ => Fulfilled writable;
  P.ready := ready;
|}.

(** The same provider with another outcome of its write. *)
Definition writing (w : Promise bool) (p : Provider) : Provider := {|
  P.folderUri := P.folderUri p;
  P.getConfigUri := P.getConfigUri p;
  P.resolve := P.resolve p;
  P.getPreferences := P.getPreferences p;
  P.setPreference := fun _ _ _ => w;
  P.ready := P.ready p;
|}.

(** The registry holding the given providers, keyed by config URI. *)
Definition registry (ps : list Provider) : F.t := {|
  F.providers := (fun p => (from_option toString "" (P.getConfigUri p None), p)) <$> ps;
  F.readyPromises := None;
|}.

(** A factory whose providers are empty and writable; the ones under
    [.vscode] fail to initialise. *)
Definition factory (options : FolderPreferenceProviderOptions) : Provider :=
  let configUri := optConfigUri options in
  provider (uri (folder options)) (toString configUri) true ∅ true
    (if decide (directory configUri = ".vscode") then Rejected "unreadable"
     else Fulfilled tt).

Definition workspace (uris : list string) : WorkspaceService :=
  {| roots := Fulfilled (Build_FileStat <$> uris);
     tryGetRoots := Build_FileStat <$> uris |}.

End Sample.

(* ================================================================== *)
(** ** Vocabulary of the statements *)
(* ================================================================== *)

Module Import Shorthand.
Module P := FolderPreferenceProvider.
Module F := FoldersPreferencesProvider.
End Shorthand.

(** The string of the folder a provider is bound to. *)
Definition folderOf (p : Provider) : string := toString (P.folderUri p).

(** The relativity [getProviders] computes for a provider. *)
Definition relativityOf (lib : UriLib) (resourceUri : string) (p : Provider) : Z :=
  relativity lib (path (P.folderUri p)) (path (new_URI lib resourceUri)).

(** The selection rule with ties going to the folder seen first: the
    folder of the first provider that reaches the greatest non-negative
    relativity supplies the candidates. *)
Definition first_seen_rule (lib : UriLib) (self : F.t) (r : string) : Prop :=
  let ps := JsMap.values (F.providers self) in
  let rel := relativityOf lib r in
  ∀ l1 p l2,
    ps = l1 ++ p :: l2 → 0 ≤ rel p →
    Forall (λ q, rel q < rel p) l1 → Forall (λ q, rel q ≤ rel p) l2 →
    F.getProviders lib self (Some r) = filter (λ q, folderOf q = folderOf p) ps.

(** Two roots with the same path on different hosts. *)
Definition alpha_settings : Provider :=
  Sample.provider "file://alpha/ws" "file://alpha/ws/.theia/settings.json"
    true ∅ true (Fulfilled tt).

Definition beta_settings : Provider :=
  Sample.provider "file://beta/ws" "file://beta/ws/.theia/settings.json"
    true ∅ true (Fulfilled tt).

Definition two_hosts : F.t := Sample.registry [alpha_settings; beta_settings].

(** A provider misses a setting when its [resolve] leaves the value or
    the config URI undefined. *)
Definition misses (name : string) (r : option string) (p : Provider) : Prop :=
  value (P.resolve p name r) = None ∨ configUri (P.resolve p name r) = None.

(** Two roots, [/lib] registered before [/ws]; the provider of [/lib]
    answers with its config URI for every resource. *)
Definition lib_settings : Provider :=
  Sample.provider "file:///lib" "file:///lib/.theia/settings.json"
    true {[ "editor.tabSize" := JNum 2 ]} true (Fulfilled tt).

Definition ws_settings : Provider :=
  Sample.provider "file:///ws" "file:///ws/.theia/settings.json"
    true {[ "editor.tabSize" := JNum 4 ]} true (Fulfilled tt).

Definition two_roots : F.t := Sample.registry [lib_settings; ws_settings].

(** The config name [getPreferences] computes for a provider: the name of
    the config URI it has for the resource, if it has one. *)
Definition nameFor (cfg : PreferenceConfigurations) (r : option string)
    (p : Provider) : option string :=
  (λ u, getName cfg (Some u)) <$> P.getConfigUri p r.

(** The providers that contribute to the merged map, in canonical order: a
    provider contributes when it has a config URI for the resource and no
    later provider of the list has one of the same name. *)
Fixpoint contributors (cfg : PreferenceConfigurations) (r : option string)
    (ps : list Provider) : list Provider :=
  match ps with
  | [] => []
  | p :: ps' =>
      match nameFor cfg r p with
      | Some n =>
          if decide (Some n ∈ nameFor cfg r <$> ps') then contributors cfg r ps'
          else p :: contributors cfg r ps'
      | None => contributors cfg r ps'
      end
  end.

(** The names [getPreferences] has collected after scanning a list. *)
Definition collected (cfg : PreferenceConfigurations) (r : option string)
    (ps : list Provider) : gset string :=
  list_to_set (omap (nameFor cfg r) ps).

(** One root with three config files: [settings] under [.theia] and under
    [.vscode], and [launch] in between. *)
Definition theia_settings : Provider :=
  Sample.provider "file:///ws" "file:///ws/.theia/settings.json"
    true {[ "editor.tabSize" := JNum 4 ]} true (Fulfilled tt).

Definition theia_launch : Provider :=
  Sample.provider "file:///ws" "file:///ws/.theia/launch.json"
    true {[ "editor.tabSize" := JNum 2 ]} true (Fulfilled tt).

Definition vscode_settings : Provider :=
  Sample.provider "file:///ws" "file:///ws/.vscode/settings.json"
    true ∅ true (Fulfilled tt).

Definition three_configs : F.t :=
  Sample.registry [theia_settings; theia_launch; vscode_settings].

(** The provider has a config URI for the resource. *)
Definition applies (r : option string) (p : Provider) : Prop :=
  is_Some (P.getConfigUri p r).

#[global] Instance applies_dec r p : Decision (applies r p).
Proof. unfold applies. apply _. Defined.

(** The config name a write of [preferenceName] goes to: the text before
    the first dot when it is a section name, the default name otherwise. *)
Definition targetConfigName (cfg : PreferenceConfigurations)
    (preferenceName : string) : string :=
  if isSectionName cfg (split_first_dot preferenceName)
  then split_first_dot preferenceName
  else getConfigName cfg.

(** The provider's own config URI carries the config name. *)
Definition targets (cfg : PreferenceConfigurations) (configName : string)
    (p : Provider) : Prop :=
  getName cfg (P.getConfigUri p None) = configName.

#[global] Instance targets_dec cfg configName p : Decision (targets cfg configName p).
Proof. unfold targets. apply _. Defined.

(** The reference path: the path of the config URI of the first provider
    that has one for the resource. *)
Definition referencePath (cfg : PreferenceConfigurations) (r : option string)
    (ps : list Provider) : option string :=
  head (omap (λ p, (λ u, getPath cfg (Some u)) <$> P.getConfigUri p r) ps).

(** The provider's own config URI lies at the reference path. *)
Definition colocated (cfg : PreferenceConfigurations) (reference : option string)
    (p : Provider) : Prop :=
  Some (getPath cfg (P.getConfigUri p None)) = reference.

#[global] Instance colocated_dec cfg reference p : Decision (colocated cfg reference p).
Proof. unfold colocated. apply _. Defined.

(** Writing to the providers of a list in order for as long as the writes
    resolve to [false]: the outcome of the first write that does
    something else ([false] when there is none) and the providers
    written to. *)
Fixpoint try_in_order (name : string) (v : any) (r : option string)
    (ps : list Provider) : Promise bool * list Provider :=
  match ps with
  | [] => (Fulfilled false, [])
  | p :: ps' =>
      match P.setPreference p name v r with
      | Fulfilled false =>
          (fst (try_in_order name v r ps'), p :: snd (try_in_order name v r ps'))
      | outcome => (outcome, [p])
      end
  end.

(** The outcome and the write attempts of a run of [setPreference]. *)
Definition outcome (w : F.Written) : Promise bool * list Provider :=
  (F.result w, F.attempts w).

(** The scenario of three providers of the target name: [qa] lies off the
    reference path and [qb] on it, both without a config URI for the
    resource; [qc] has one.  Every write resolves to [false]. *)
Definition qa : Provider :=
  Sample.provider "file:///ws" "file:///ws/.vscode/settings.json"
    false ∅ false (Fulfilled tt).

Definition qb : Provider :=
  Sample.provider "file:///ws" "file:///ws/.theia/settings.json"
    false ∅ false (Fulfilled tt).

Definition qc : Provider :=
  Sample.provider "file:///ws" "file:///ws/sub/.theia/settings.json"
    true ∅ false (Fulfilled tt).

Definition escalation : F.t := Sample.registry [qa; qb; qc].

(** The order in which [setPreference] is to try the candidates: round A,
    the candidates of the target name with a config URI for the resource;
    round B, of the others, the ones at the reference path; round C, the
    remaining ones. *)
Definition write_order (lib : UriLib) (cfg : PreferenceConfigurations)
    (self : F.t) (name : string) (r : option string) : list Provider :=
  let cands := F.getProviders lib self r in
  let matching := filter (targets cfg (targetConfigName cfg name)) cands in
  let reference := referencePath cfg r cands in
  let others := filter (λ p, ¬ applies r p) matching in
  filter (applies r) matching
  ++ filter (colocated cfg reference) others
  ++ filter (λ p, ¬ colocated cfg reference p) others.

(** The routing rule with a boolean for every call: [false] when no write
    of the three rounds reports success, and otherwise [true] at the first
    provider, in the order of the rounds, whose write reports success. *)
Definition always_a_boolean (lib : UriLib) (cfg : PreferenceConfigurations)
    (self : F.t) (name : string) (v : any) (r : option string) : Prop :=
  let order := write_order lib cfg self name r in
  let w := F.setPreference lib cfg self name v r in
  (Forall (λ p, P.setPreference p name v r ≠ Fulfilled true) order →
   F.result w = Fulfilled false ∧ F.attempts w = order)
  ∧ (∀ failed p rest,
       order = failed ++ p :: rest →
       Forall (λ q, P.setPreference q name v r ≠ Fulfilled true) failed →
       P.setPreference p name v r = Fulfilled true →
       F.result w = Fulfilled true ∧ F.attempts w = failed ++ [p]).

(** Two [settings] files of one root, both with a config URI for the
    resource: the write to the first is rejected, the second would accept
    the write. *)
Definition full_disk : Provider :=
  Sample.writing (Rejected "disk full")
    (Sample.provider "file:///ws" "file:///ws/.theia/settings.json"
       true ∅ true (Fulfilled tt)).

Definition spare : Provider :=
  Sample.provider "file:///ws" "file:///ws/.vscode/settings.json"
    true ∅ true (Fulfilled tt).

Definition rejected_write : F.t := Sample.registry [full_disk; spare].

(** The universe a reconciliation runs against: every root with each of
    the config URIs enumerated for it, in the order of enumeration. *)
Definition universe_of (lib : UriLib) (cfg : PreferenceConfigurations)
    (roots : list FileStat) : list (FileStat * URI) :=
  f ← roots; (λ c, (f, c)) <$> getUris cfg (new_URI lib (uri f)).

Definition universe (lib : UriLib) (cfg : PreferenceConfigurations)
    (ws : WorkspaceService) : list (FileStat * URI) :=
  universe_of lib cfg (tryGetRoots ws).

(** The key under which the provider of a pair is stored. *)
Definition keyOf (fc : FileStat * URI) : string := toString fc.2.

(** The provider the factory makes for a pair. *)
Definition providerOf (factory : FolderPreferenceProviderOptions → Provider)
    (fc : FileStat * URI) : Provider :=
  factory {| folder := fc.1; optConfigUri := fc.2 |}.

(** The inner loop body of [updateProviders] on a pair. *)
Definition visit_pair (factory : FolderPreferenceProviderOptions → Provider)
    (acc : JsSet.t * JsMap.t Provider * list Provider) (fc : FileStat * URI)
    : JsSet.t * JsMap.t Provider * list Provider :=
  F.visit factory fc.1 acc fc.2.

(** The domain read as the set of folders the live providers are bound
    to. *)
Definition domain_is_bound_folders (ws : WorkspaceService) (self : F.t) : Prop :=
  ∀ u, u ∈ F.getDomain ws self
       ↔ ∃ p, p ∈ JsMap.values (F.providers self) ∧ folderOf p = u.

(** A resolver that enumerates no config URI for any folder. *)
Definition no_locations : PreferenceConfigurations := {|
  getUris := fun _ => [];
  isConfigUri := isConfigUri Sample.configurations;
  getName := getName Sample.configurations;
  getPath := getPath Sample.configurations;
  isSectionName := isSectionName Sample.configurations;
  getConfigName := getConfigName Sample.configurations;
|}.

(** Two roots with one [settings] file each; a provider has a config URI
    for a resource exactly when the resource lies below its folder. *)
Definition root1_settings (resource : string) : Provider :=
  Sample.provider "file:///root1" "file:///root1/.theia/settings.json"
    (bool_decide (0 ≤ Sample.below "/root1" (path (Sample.parse resource))))
    {[ "editor.tabSize" := JNum 4 ]} true (Fulfilled tt).

Definition root2_settings (resource : string) : Provider :=
  Sample.provider "file:///root2" "file:///root2/.theia/settings.json"
    (bool_decide (0 ≤ Sample.below "/root2" (path (Sample.parse resource))))
    {[ "editor.tabSize" := JNum 2 ]} true (Fulfilled tt).

Definition two_folders (resource : string) : F.t :=
  Sample.registry [root1_settings resource; root2_settings resource].

(** A provider whose folder URI prints as the empty string. *)
Definition nameless_settings : Provider :=
  Sample.provider "" "file:///.theia/settings.json" true ∅ true (Fulfilled tt).

(* ================================================================== *)
(** ** Vocabulary of the further properties *)
(* ================================================================== *)

(** The entries a reconciliation appends to the map: one for every pair
    of the universe whose key is not known yet, the keys of the map being
    known from the start and every appended key from then on. *)
Fixpoint additions (factory : FolderPreferenceProviderOptions → Provider)
    (known : list string) (l : list (FileStat * URI)) : list (string * Provider) :=
  match l with
  | [] => []
  | fc :: l' =>
      if decide (keyOf fc ∈ known) then additions factory known l'
      else (keyOf fc, providerOf factory fc)
           :: additions factory (known ++ [keyOf fc]) l'
  end.

(** A workspace change: the root [file:///a] is replaced by [file:///b]. *)
Definition before_change : F.t :=
  F.init Sample.lib Sample.configurations Sample.factory
    (Sample.workspace ["file:///a"]) F.fresh.

(** A provider whose [resolve] goes with its map and its config URI: it
    yields a value and a config URI exactly when the map defines the
    setting and the provider has a config URI for the resource, and then
    it yields these two. *)
Definition coherent (name : string) (r : option string) (p : Provider) : Prop :=
  match value (P.resolve p name r), configUri (P.resolve p name r) with
  | Some v, Some u =>
      P.getPreferences p !! name = Some v ∧ P.getConfigUri p r = Some u
  | _, _ => P.getPreferences p !! name = None ∨ P.getConfigUri p r = None
  end.

(** A workspace whose initial enumeration fails. *)
Definition unreadable_workspace : WorkspaceService :=
  {| roots := Rejected "no workspace";
     tryGetRoots := [Build_FileStat "file:///ws"] |}.

(** The registry after [init] on two roots. *)
Definition two_roots_started : F.t :=
  F.init Sample.lib Sample.configurations Sample.factory
    (Sample.workspace ["file:///a"; "file:///b"]) F.fresh.

(** One root with a [settings] and a [launch] file that both set the same
    key. *)
Definition two_names : F.t := Sample.registry [theia_settings; theia_launch].

(* ================================================================== *)
(** ** Facts about the containers *)
(* ================================================================== *)

Section JsMapFacts.
Context {V : Type}.
Implicit Types (m : JsMap.t V) (k : string) (v : V).

Lemma JsMap_get_set_eq m k v : JsMap.get (JsMap.set m k v) k = Some v.
Proof.
  induction m as [|[k' v'] m IH]; simpl.
  - by rewrite decide_True.
  - destruct (decide (k' = k)) as [->|Hne]; simpl.
    + by rewrite decide_True.
    + by rewrite decide_False.
Qed.

Lemma JsMap_get_set_ne m k k' v :
  k ≠ k' → JsMap.get (JsMap.set m k v) k' = JsMap.get m k'.
Proof.
  intros Hne. induction m as [|[k0 v0] m IH]; simpl.
  - by rewrite decide_False.
  - destruct (decide (k0 = k)) as [->|Hk0]; simpl.
    + by rewrite !decide_False.
    + by rewrite IH.
Qed.

Lemma JsMap_get_Some_keys m k : is_Some (JsMap.get m k) ↔ k ∈ JsMap.keys m.
Proof.
  unfold JsMap.keys. induction m as [|[k' v'] m IH]; simpl.
  - split; [by intros [? ?] | by intros ?%elem_of_nil].
  - rewrite elem_of_cons. destruct (decide (k' = k)) as [->|Hne].
    + split; [by left | by eexists].
    + rewrite IH. split; [by right | by intros [?|?]].
Qed.

Lemma JsMap_has_keys m k : JsMap.has m k = true ↔ k ∈ JsMap.keys m.
Proof.
  rewrite <- JsMap_get_Some_keys. unfold JsMap.has.
  destruct (JsMap.get m k); split; try done; try by eexists.
Qed.

Lemma JsMap_keys_set m k v :
  ∀ k', k' ∈ JsMap.keys (JsMap.set m k v) ↔ k' = k ∨ k' ∈ JsMap.keys m.
Proof.
  intros k'. unfold JsMap.keys. induction m as [|[k0 v0] m IH]; simpl.
  - rewrite list_elem_of_singleton, elem_of_nil. tauto.
  - destruct (decide (k0 = k)) as [->|Hk0]; simpl; rewrite !elem_of_cons.
    + tauto.
    + rewrite IH. tauto.
Qed.

Lemma JsMap_keys_delete m k :
  ∀ k', k' ∈ JsMap.keys (JsMap.delete m k) ↔ k' ≠ k ∧ k' ∈ JsMap.keys m.
Proof.
  intros k'. unfold JsMap.keys. induction m as [|[k0 v0] m IH]; simpl.
  - rewrite elem_of_nil. tauto.
  - destruct (decide (k0 = k)) as [->|Hk0]; simpl; rewrite ?elem_of_cons, IH.
    + split; [tauto | intros [? [?|?]]; [congruence | tauto]].
    + split; [intros [->|[? ?]]; tauto | tauto].
Qed.

End JsMapFacts.

Lemma JsSet_elem_of_delete (s : JsSet.t) (k k' : string) :
  k' ∈ JsSet.delete s k ↔ k' ≠ k ∧ k' ∈ s.
Proof.
  induction s as [|k0 s IH]; simpl.
  - rewrite elem_of_nil. tauto.
  - destruct (decide (k0 = k)) as [->|Hk0]; rewrite ?elem_of_cons, IH.
    + split; [tauto | intros [? [?|?]]; [congruence | tauto]].
    + split; [intros [->|[? ?]]; tauto | tauto].
Qed.

Lemma JsSet_elem_of_add (s : JsSet.t) (k k' : string) :
  k' ∈ JsSet.add s k ↔ k' = k ∨ k' ∈ s.
Proof.
  unfold JsSet.add, JsSet.has. case_bool_decide as Hin.
  - split; [tauto | intros [->|?]; done].
  - rewrite elem_of_app, list_elem_of_singleton. tauto.
Qed.

Lemma JsSet_elem_of_of_list (l : list string) (k : string) :
  k ∈ JsSet.of_list l ↔ k ∈ l.
Proof.
  unfold JsSet.of_list.
  assert (∀ s, k ∈ foldl JsSet.add s l ↔ k ∈ s ∨ k ∈ l) as H.
  { induction l as [|x l IH]; intros s; simpl.
    - rewrite elem_of_nil. tauto.
    - rewrite IH, JsSet_elem_of_add, elem_of_cons. tauto. }
  rewrite H, elem_of_nil. tauto.
Qed.

(* ================================================================== *)
(** ** Candidate selection: [getProviders] *)
(* ================================================================== *)

Section Selection.
Context (lib : UriLib).

Lemma group_bucket rp (l : list Provider) :
  ∀ pick g u,
    default [] (JsMap.get (foldl (F.group lib rp) (pick, g) l).2 u)
    = default [] (JsMap.get g u) ++ filter (λ p, folderOf p = u) l.
Proof.
  induction l as [|p l IH]; intros pick g u.
  - simpl. by rewrite app_nil_r.
  - change (foldl (F.group lib rp) (pick, g) (p :: l))
      with (foldl (F.group lib rp) (F.group lib rp (pick, g) p) l).
    destruct (F.group lib rp (pick, g) p) as [pick' g'] eqn:Hg.
    assert (g' = JsMap.set g (folderOf p)
                   (default [] (JsMap.get g (folderOf p)) ++ [p])) as ->.
    { unfold F.group in Hg. simpl in Hg.
      destruct (_ && _) in Hg; by inversion Hg. }
    rewrite IH, filter_cons. case_decide as Hu.
    + rewrite <- Hu, JsMap_get_set_eq. simpl. by rewrite <- app_assoc.
    + by rewrite JsMap_get_set_ne.
Qed.

Lemma group_pick r (l : list Provider) :
  let rel := relativityOf lib r in
  let pick :=
    (foldl (F.group lib (path (new_URI lib r)))
       ({| F.pick_relativity := -1; F.pick_uri := None |}, []) l).1 in
  (Forall (λ p, rel p < 0) l
   ∧ pick = {| F.pick_relativity := -1; F.pick_uri := None |})
  ∨ (∃ l1 p l2,
       l = l1 ++ p :: l2 ∧ 0 ≤ rel p
       ∧ Forall (λ q, rel q ≤ rel p) l1 ∧ Forall (λ q, rel q < rel p) l2
       ∧ pick = {| F.pick_relativity := rel p; F.pick_uri := Some (folderOf p) |}).
Proof.
  intros rel. induction l as [|x l IH] using rev_ind; simpl.
  - left. split; [constructor | done].
  - rewrite foldl_snoc.
    destruct (foldl _ _ l) as [pick g] eqn:Hfold. simpl in IH.
    unfold F.group. fold (relativityOf lib r x). fold rel. simpl.
    destruct (0 <=? rel x) eqn:H0; simpl.
    + apply Z.leb_le in H0.
      destruct (F.pick_relativity pick <=? rel x) eqn:Hle; simpl.
      * apply Z.leb_le in Hle. right. exists l, x, []. repeat split; try done.
        destruct IH as [[Hneg ->]|(l1 & p & l2 & -> & Hp & H1 & H2 & ->)].
        -- eapply Forall_impl; [exact Hneg|]. simpl. intros; lia.
        -- simpl in Hle. rewrite Forall_app, Forall_cons. repeat split.
           ++ eapply Forall_impl; [exact H1|]. simpl. intros; lia.
           ++ done.
           ++ eapply Forall_impl; [exact H2|]. simpl. intros; lia.
      * apply Z.leb_gt in Hle.
        destruct IH as [[Hneg ->]|(l1 & p & l2 & -> & Hp & H1 & H2 & ->)].
        -- simpl in Hle. lia.
        -- right. exists l1, p, (l2 ++ [x]). simpl in Hle.
           rewrite <- app_assoc. repeat split; try done.
           rewrite Forall_app, Forall_singleton. done.
    + apply Z.leb_gt in H0.
      destruct IH as [[Hneg ->]|(l1 & p & l2 & -> & Hp & H1 & H2 & ->)].
      * left. split; [|done]. rewrite Forall_app, Forall_singleton. done.
      * right. exists l1, p, (l2 ++ [x]).
        rewrite <- app_assoc. repeat split; try done.
        rewrite Forall_app, Forall_singleton. split; [done | lia].
Qed.

(** What [getProviders] returns for a truthy resource, by the folder the
    loop ends on. *)
Lemma getProviders_pick self r :
  r ≠ "" →
  F.getProviders lib self (Some r)
  = match F.pick_uri
            (foldl (F.group lib (path (new_URI lib r)))
               ({| F.pick_relativity := -1; F.pick_uri := None |}, [])
               (JsMap.values (F.providers self))).1 with
    | Some u =>
        if decide (u = "") then []
        else filter (λ p, folderOf p = u) (JsMap.values (F.providers self))
    | None => []
    end.
Proof.
  intros Hr. unfold F.getProviders. simpl.
  rewrite bool_decide_eq_false_2 by done. simpl.
  pose proof (group_bucket (path (new_URI lib r)) (JsMap.values (F.providers self))
                {| F.pick_relativity := -1; F.pick_uri := None |} []) as Hb.
  destruct (foldl _ _ _) as [pick g]. simpl in *.
  destruct (F.pick_uri pick) as [u|]; simpl; [|done].
  case_bool_decide; simpl; case_decide; done.
Qed.

End Selection.

(** C1, as amended.  For a non-empty resource URI and providers whose
    folder URIs are non-empty strings: when no folder has a non-negative
    relativity there are no candidates; otherwise the candidates are all
    providers bound to one folder, in canonical order, and that folder is
    the one of the LAST provider in canonical order whose relativity is
    the greatest non-negative one (every provider before it has a
    relativity at most as large, every provider after it a strictly
    smaller one). *)
Theorem getProviders_last_most_relative (lib : UriLib) (self : F.t) (r : string) :
  r ≠ "" →
  Forall (λ p, folderOf p ≠ "") (JsMap.values (F.providers self)) →
  let ps := JsMap.values (F.providers self) in
  let rel := relativityOf lib r in
  (Forall (λ p, rel p < 0) ps ∧ F.getProviders lib self (Some r) = [])
  ∨ (∃ l1 p l2,
       ps = l1 ++ p :: l2 ∧ 0 ≤ rel p
       ∧ Forall (λ q, rel q ≤ rel p) l1 ∧ Forall (λ q, rel q < rel p) l2
       ∧ F.getProviders lib self (Some r)
         = filter (λ q, folderOf q = folderOf p) ps).
Proof.
  intros Hr Hne ps rel. subst ps rel. rewrite getProviders_pick by done.
  pose proof (group_pick lib r (JsMap.values (F.providers self))) as Hpick.
  cbv zeta in Hpick.
  destruct Hpick as [[Hneg ->]|(l1 & p & l2 & Hps & Hp & H1 & H2 & ->)].
  - left. done.
  - right. exists l1, p, l2. repeat split; try done. simpl.
    rewrite decide_False; [done|].
    rewrite Forall_forall in Hne. apply Hne. rewrite Hps.
    apply elem_of_app. right. by left.
Qed.

(** The amended rule at the two roots of equal relativity. *)
Lemma getProviders_last_most_relative_witness :
  "file://alpha/ws/a.txt" ≠ ""
  ∧ Forall (λ p, folderOf p ≠ "") (JsMap.values (F.providers two_hosts))
  ∧ (let ps := JsMap.values (F.providers two_hosts) in
     let rel := relativityOf Sample.lib "file://alpha/ws/a.txt" in
     (Forall (λ p, rel p < 0) ps
      ∧ F.getProviders Sample.lib two_hosts (Some "file://alpha/ws/a.txt") = [])
     ∨ (∃ l1 p l2,
          ps = l1 ++ p :: l2 ∧ 0 ≤ rel p
          ∧ Forall (λ q, rel q ≤ rel p) l1 ∧ Forall (λ q, rel q < rel p) l2
          ∧ F.getProviders Sample.lib two_hosts (Some "file://alpha/ws/a.txt")
            = filter (λ q, folderOf q = folderOf p) ps)).
Proof.
  assert ("file://alpha/ws/a.txt" ≠ "") as H1 by discriminate.
  assert (Forall (λ p, folderOf p ≠ "") (JsMap.values (F.providers two_hosts))) as H2
    by (repeat constructor; discriminate).
  split; [exact H1 | split; [exact H2 |]].
  exact (getProviders_last_most_relative Sample.lib two_hosts _ H1 H2).
Defined.

(** C1 as stated fails: with two folders of equal relativity the code
    keeps the folder seen last, not the one seen first. *)
Lemma getProviders_tie_not_first_seen :
  ¬ first_seen_rule Sample.lib two_hosts "file://alpha/ws/a.txt".
Proof.
  intros H.
  specialize (H [] alpha_settings [beta_settings] eq_refl).
  assert (folderOf <$> F.getProviders Sample.lib two_hosts (Some "file://alpha/ws/a.txt")
          = ["file://alpha/ws"]) as Hfirst.
  { rewrite H; [done | by vm_compute | constructor |].
    repeat constructor. by vm_compute. }
  vm_compute in Hfirst. discriminate.
Qed.

(** The folder URI is tested for truthiness before the lookup: a selected
    folder whose URI prints as the empty string yields no candidates. *)
Example getProviders_empty_folder_uri :
  relativityOf Sample.lib "file:///a.txt" nameless_settings = 1
  ∧ F.getProviders Sample.lib (Sample.registry [nameless_settings])
      (Some "file:///a.txt") = [].
Proof. by vm_compute. Qed.

(** C8.  Without a resource URI ([undefined], or the empty string, which
    is falsy as well) there are no candidates and [resolve] returns the
    empty object: no value and no config URI. *)
Theorem no_resource_no_candidates (lib : UriLib) (self : F.t) (name : string) :
  F.getProviders lib self None = []
  ∧ F.getProviders lib self (Some "") = []
  ∧ F.resolve lib self name None = mkResolved None None
  ∧ F.resolve lib self name (Some "") = mkResolved None None.
Proof. done. Qed.

(* ================================================================== *)
(** ** Single-value resolution: [resolve] *)
(* ================================================================== *)

Lemma resolve_from_first_match (ps : list Provider) name r :
  (Forall (misses name r) ps ∧ F.resolve_from ps name r = mkResolved None None)
  ∨ (∃ l1 p l2 v u,
       ps = l1 ++ p :: l2 ∧ Forall (misses name r) l1
       ∧ value (P.resolve p name r) = Some v
       ∧ configUri (P.resolve p name r) = Some u
       ∧ F.resolve_from ps name r = mkResolved (Some v) (Some u)).
Proof.
  induction ps as [|q ps IH]; simpl.
  - left. by split.
  - destruct (value (P.resolve q name r)) as [v|] eqn:Hv.
    + destruct (configUri (P.resolve q name r)) as [u|] eqn:Hu.
      * right. by exists [], q, ps, v, u.
      * destruct IH as [[Hall ->]|(l1 & p & l2 & v' & u' & -> & Hl1 & Hpv & Hpu & ->)].
        -- left. split; [|done]. constructor; [by right | done].
        -- right. exists (q :: l1), p, l2, v', u'. repeat split; try done.
           constructor; [by right | done].
    + destruct IH as [[Hall ->]|(l1 & p & l2 & v' & u' & -> & Hl1 & Hpv & Hpu & ->)].
      * left. split; [|done]. constructor; [by left | done].
      * right. exists (q :: l1), p, l2, v', u'. repeat split; try done.
        constructor; [by left | done].
Qed.

(** C4.  [resolve] scans the candidates in canonical order and returns the
    value and config URI of the first provider whose own [resolve] yields
    both; when every candidate misses, it returns the empty object. *)
Theorem resolve_first_match (lib : UriLib) (self : F.t) (name : string)
    (r : option string) :
  let cands := F.getProviders lib self r in
  (Forall (misses name r) cands ∧ F.resolve lib self name r = mkResolved None None)
  ∨ (∃ l1 p l2 v u,
       cands = l1 ++ p :: l2 ∧ Forall (misses name r) l1
       ∧ value (P.resolve p name r) = Some v
       ∧ configUri (P.resolve p name r) = Some u
       ∧ F.resolve lib self name r = mkResolved (Some v) (Some u)).
Proof. apply resolve_from_first_match. Qed.

(* ================================================================== *)
(** ** The aggregate [getConfigUri] *)
(* ================================================================== *)

Lemma getConfigUri_from_first (cfg : PreferenceConfigurations)
    (ps : list Provider) (r : option string) :
  (Forall (λ p, isConfigUri cfg (P.getConfigUri p r) = false) ps
   ∧ F.getConfigUri_from cfg ps r = None)
  ∨ (∃ l1 p l2,
       ps = l1 ++ p :: l2
       ∧ Forall (λ q, isConfigUri cfg (P.getConfigUri q r) = false) l1
       ∧ isConfigUri cfg (P.getConfigUri p r) = true
       ∧ F.getConfigUri_from cfg ps r = P.getConfigUri p r).
Proof.
  induction ps as [|q ps IH]; simpl.
  - left. by split.
  - destruct (isConfigUri cfg (P.getConfigUri q r)) eqn:Hq.
    + right. by exists [], q, ps.
    + destruct IH as [[Hall ->]|(l1 & p & l2 & -> & Hl1 & Hp & ->)].
      * left. split; [|done]. by constructor.
      * right. exists (q :: l1), p, l2. repeat split; try done. by constructor.
Qed.

(** C10.  The aggregate [getConfigUri] walks every provider of the map in
    canonical order, whatever its folder, and returns the config URI of
    the first one whose answer [isConfigUri] accepts.  There is an input
    on which that URI comes from a provider whose folder does not contain
    the resource (negative relativity): a provider that is not among the
    candidates [resolve] and [getPreferences] consult, and [resolve]
    reports another config URI. *)
Theorem getConfigUri_ignores_folders :
  (∀ (cfg : PreferenceConfigurations) (self : F.t) (r : option string),
     let ps := JsMap.values (F.providers self) in
     (Forall (λ p, isConfigUri cfg (P.getConfigUri p r) = false) ps
      ∧ F.getConfigUri cfg self r = None)
     ∨ (∃ l1 p l2,
          ps = l1 ++ p :: l2
          ∧ Forall (λ q, isConfigUri cfg (P.getConfigUri q r) = false) l1
          ∧ isConfigUri cfg (P.getConfigUri p r) = true
          ∧ F.getConfigUri cfg self r = P.getConfigUri p r))
  ∧ (∃ (lib : UriLib) (cfg : PreferenceConfigurations) (self : F.t)
       (r : string) (p : Provider) (u : URI),
       p ∈ JsMap.values (F.providers self)
       ∧ P.getConfigUri p (Some r) = Some u
       ∧ F.getConfigUri cfg self (Some r) = Some u
       ∧ relativityOf lib r p < 0
       ∧ F.getProviders lib self (Some r) ≠ []
       ∧ Forall (λ q, folderOf q ≠ folderOf p) (F.getProviders lib self (Some r))
       ∧ configUri (F.resolve lib self "editor.tabSize" (Some r)) ≠ Some u).
Proof.
  split.
  - intros cfg self r. apply getConfigUri_from_first.
  - exists Sample.lib, Sample.configurations, two_roots, "file:///ws/a.txt",
      lib_settings, (Sample.parse "file:///lib/.theia/settings.json").
    split_and!.
    + by left.
    + by vm_compute.
    + by vm_compute.
    + by vm_compute.
    + vm_compute. discriminate.
    + vm_compute. repeat constructor. discriminate.
    + vm_compute. discriminate.
Qed.

(* ================================================================== *)
(** ** The merged map: [getPreferences] *)
(* ================================================================== *)

Section Merge.
Context (cfg : PreferenceConfigurations) (r : option string).

Lemma elem_of_collected n ps :
  n ∈ collected cfg r ps ↔ Some n ∈ nameFor cfg r <$> ps.
Proof.
  unfold collected.
  rewrite elem_of_list_to_set, list_elem_of_omap, list_elem_of_fmap.
  split; intros (p & H1 & H2); exists p; done.
Qed.

Lemma collected_cons p ps :
  collected cfg r (p :: ps)
  = match nameFor cfg r p with
    | Some n => {[n]} ∪ collected cfg r ps
    | None => collected cfg r ps
    end.
Proof. unfold collected. simpl. by destruct (nameFor cfg r p). Qed.

(** Scanning in reverse merges the contributors, the earlier ones last. *)
Lemma collect_reverse (ps : list Provider) :
  foldl (F.collect cfg r) (∅, ∅) (reverse ps)
  = (⋃ (P.getPreferences <$> contributors cfg r ps), collected cfg r ps).
Proof.
  induction ps as [|p ps IH].
  - done.
  - rewrite reverse_cons, foldl_snoc, IH, collected_cons. unfold F.collect.
    cbn [contributors].
    destruct (P.getConfigUri p r) as [u|] eqn:Hu.
    + assert (nameFor cfg r p = Some (getName cfg (Some u))) as ->
        by (unfold nameFor; by rewrite Hu).
      destruct (decide (getName cfg (Some u) ∈ collected cfg r ps)) as [Hin|Hout].
      * rewrite decide_True by (by apply elem_of_collected).
        f_equal. symmetry. apply subseteq_union_1_L.
        by apply singleton_subseteq_l.
      * rewrite decide_False by (by rewrite <- elem_of_collected).
        done.
    + assert (nameFor cfg r p = None) as -> by (unfold nameFor; by rewrite Hu).
      done.
Qed.

Lemma union_list_first_defined (ms : list (gmap string any)) (k : string) :
  (Forall (λ m, m !! k = None) ms ∧ (⋃ ms) !! k = None)
  ∨ (∃ l1 m l2 v,
       ms = l1 ++ m :: l2 ∧ Forall (λ m', m' !! k = None) l1
       ∧ m !! k = Some v ∧ (⋃ ms) !! k = Some v).
Proof.
  induction ms as [|m ms IH]; simpl.
  - left. by split.
  - destruct (m !! k) as [v|] eqn:Hm.
    + right. exists [], m, ms, v. split_and!; try done.
      by apply lookup_union_Some_l.
    + destruct IH as [[Hall Hnone]|(l1 & m' & l2 & v & -> & Hl1 & Hm' & Hv)].
      * left. split; [by constructor|]. by apply lookup_union_None.
      * right. exists (m :: l1), m', l2, v. split_and!; try done.
        -- by constructor.
        -- rewrite lookup_union_r; done.
Qed.

Lemma contributors_names ps :
  ∀ n, Some n ∈ nameFor cfg r <$> contributors cfg r ps
       → Some n ∈ nameFor cfg r <$> ps.
Proof.
  induction ps as [|p ps IH]; intros n; simpl; [done|].
  destruct (nameFor cfg r p) as [m|] eqn:Hp.
  - case_decide as Hin; rewrite ?fmap_cons, !elem_of_cons; [by right; apply IH|].
    intros [Heq|Hn]; [left; congruence | right; by apply IH].
  - rewrite elem_of_cons. right. by apply IH.
Qed.

Lemma contributors_named ps :
  Forall (λ p, is_Some (nameFor cfg r p)) (contributors cfg r ps).
Proof.
  induction ps as [|p ps IH]; simpl; [constructor|].
  destruct (nameFor cfg r p) as [m|] eqn:Hp; [|done].
  case_decide; [done|]. constructor; [by rewrite Hp | done].
Qed.

Lemma contributors_NoDup ps : NoDup (nameFor cfg r <$> contributors cfg r ps).
Proof.
  induction ps as [|p ps IH]; simpl; [constructor|].
  destruct (nameFor cfg r p) as [m|] eqn:Hp; [|done].
  case_decide as Hin; [done|]. rewrite fmap_cons, Hp. constructor; [|done].
  intros Hc. apply Hin. by apply contributors_names.
Qed.

Lemma contributors_complete ps :
  ∀ n, Some n ∈ nameFor cfg r <$> ps
       → Some n ∈ nameFor cfg r <$> contributors cfg r ps.
Proof.
  induction ps as [|p ps IH]; intros n; [done|].
  rewrite fmap_cons, elem_of_cons. cbn [contributors].
  destruct (nameFor cfg r p) as [m|] eqn:Hp.
  - case_decide as Hin.
    + intros [Heq|Hn]; apply IH; [congruence | done].
    + rewrite fmap_cons, elem_of_cons, Hp. intros [Heq|Hn]; [by left | right; by apply IH].
  - intros [Heq|Hn]; [done | by apply IH].
Qed.

Lemma contributors_sublist ps : contributors cfg r ps `sublist_of` ps.
Proof.
  induction ps as [|p ps IH]; simpl; [done|].
  destruct (nameFor cfg r p); [case_decide|]; by constructor.
Qed.

End Merge.

(** C3.  [getPreferences] merges the maps of the candidates so that,
    among the candidates sharing a config name, exactly one contributes:
    the last one in canonical order that has a config URI for the
    resource.  The contributors keep the canonical order, no two of them
    share a name, and every name some candidate has for the resource is
    the name of a contributor.  Between contributors, which thus have
    different names, the earlier one in canonical order wins every key
    conflict: a key has the value given by the first contributor that
    defines it. *)
Theorem getPreferences_merges_contributors (lib : UriLib)
    (cfg : PreferenceConfigurations) (self : F.t) (r : option string) :
  let cands := F.getProviders lib self r in
  let cs := contributors cfg r cands in
  F.getPreferences lib cfg self r = ⋃ (P.getPreferences <$> cs)
  ∧ cs `sublist_of` cands
  ∧ NoDup (nameFor cfg r <$> cs)
  ∧ Forall (λ p, is_Some (nameFor cfg r p)) cs
  ∧ (∀ n, Some n ∈ nameFor cfg r <$> cands ↔ Some n ∈ nameFor cfg r <$> cs)
  ∧ ∀ k,
      (Forall (λ p, P.getPreferences p !! k = None) cs
       ∧ F.getPreferences lib cfg self r !! k = None)
      ∨ (∃ l1 p l2 v,
           cs = l1 ++ p :: l2
           ∧ Forall (λ q, P.getPreferences q !! k = None) l1
           ∧ P.getPreferences p !! k = Some v
           ∧ F.getPreferences lib cfg self r !! k = Some v).
Proof.
  intros cands cs.
  assert (F.getPreferences lib cfg self r = ⋃ (P.getPreferences <$> cs)) as Heq.
  { unfold F.getPreferences. by rewrite collect_reverse. }
  split_and!; [done | apply contributors_sublist | apply contributors_NoDup
               | apply contributors_named | |].
  { intros n. split; [apply contributors_complete | apply contributors_names]. }
  intros k. rewrite Heq.
  destruct (union_list_first_defined (P.getPreferences <$> cs) k)
    as [[Hall Hnone]|(l1 & m & l2 & v & Hsplit & Hl1 & Hm & Hv)].
  - left. split; [|done]. by rewrite Forall_fmap in Hall.
  - right. apply fmap_app_inv in Hsplit as (c1 & c2' & -> & Hc2 & ->).
    symmetry in Hc2. apply fmap_cons_inv in Hc2 as (p & c2 & -> & -> & ->).
    exists c1, p, c2, v. split_and!; try done. by rewrite Forall_fmap in Hl1.
Qed.

(** The clause on shared names at work: of the two [settings] files only
    the later one contributes, so the key set by [launch] keeps its value
    although the first [settings] file sets it as well. *)
Example getPreferences_last_of_a_name :
  let r := Some "file:///ws/a.txt" in
  F.getProviders Sample.lib three_configs r
  = [theia_settings; theia_launch; vscode_settings]
  ∧ contributors Sample.configurations r (F.getProviders Sample.lib three_configs r)
    = [theia_launch; vscode_settings]
  ∧ F.getPreferences Sample.lib Sample.configurations three_configs r
      !! "editor.tabSize" = Some (JNum 2).
Proof. by vm_compute. Qed.

(* ================================================================== *)
(** ** Write routing: [setPreference] *)
(* ================================================================== *)

Section Routing.
Context (cfg : PreferenceConfigurations).
Context (name : string) (v : any) (r : option string) (configPath : option string).

(** One turn of the [while] loop. *)
Lemma drain_cons next iterator :
  F.drain cfg name v r configPath (next :: iterator)
  = match F.call cfg r configPath next with
    | (Some provider, pushed) =>
        match P.setPreference provider name v r with
        | Fulfilled true =>
            {| F.result := Fulfilled true; F.attempts := [provider]; F.calls := 1 |}
        | Fulfilled false =>
            let w := F.drain cfg name v r configPath (iterator ++ pushed) in
            {| F.result := F.result w; F.attempts := provider :: F.attempts w;
               F.calls := S (F.calls w) |}
        | Rejected e =>
            {| F.result := Rejected e; F.attempts := [provider]; F.calls := 1 |}
        | Pending =>
            {| F.result := Pending; F.attempts := [provider]; F.calls := 1 |}
        end
    | (None, pushed) =>
        let w := F.drain cfg name v r configPath (iterator ++ pushed) in
        {| F.result := F.result w; F.attempts := F.attempts w;
           F.calls := S (F.calls w) |}
    end.
Proof.
  simp drain. unfold Logic.inspect.
  enough (∀ y (e : F.call cfg r configPath next = y),
            F.drain_unfold_clause_2 cfg name v r configPath next (exist _ y e) iterator
            = match y with
              | (Some provider, pushed) =>
                  match P.setPreference provider name v r with
                  | Fulfilled true =>
                      {| F.result := Fulfilled true; F.attempts := [provider];
                         F.calls := 1 |}
                  | Fulfilled false =>
                      let w := F.drain cfg name v r configPath (iterator ++ pushed) in
                      {| F.result := F.result w;
                         F.attempts := provider :: F.attempts w;
                         F.calls := S (F.calls w) |}
                  | Rejected e =>
                      {| F.result := Rejected e; F.attempts := [provider];
                         F.calls := 1 |}
                  | Pending =>
                      {| F.result := Pending; F.attempts := [provider];
                         F.calls := 1 |}
                  end
              | (None, pushed) =>
                  let w := F.drain cfg name v r configPath (iterator ++ pushed) in
                  {| F.result := F.result w; F.attempts := F.attempts w;
                     F.calls := S (F.calls w) |}
              end) as H by apply H.
  intros [[provider|] pushed] e; by simp drain.
Qed.

Local Abbreviation drain := (F.drain cfg name v r configPath).
Local Abbreviation in_order := (try_in_order name v r).

Lemma drain_roundC (lc : list Provider) :
  outcome (drain (F.RoundC <$> lc)) = in_order lc.
Proof.
  induction lc as [|c lc IH]; [done|].
  rewrite fmap_cons, drain_cons. cbn [F.call try_in_order].
  destruct (P.setPreference c name v r) as [|[|]|e]; try done.
  rewrite app_nil_r. unfold outcome in *. simpl. by rewrite <- IH.
Qed.

Lemma drain_roundB (lb : list Provider) :
  ∀ lc,
    outcome (drain ((F.RoundB <$> lb) ++ (F.RoundC <$> lc)))
    = in_order (filter (colocated cfg configPath) lb ++ lc
                ++ filter (λ p, ¬ colocated cfg configPath p) lb).
Proof.
  induction lb as [|b lb IH]; intros lc.
  - simpl. rewrite app_nil_r. apply drain_roundC.
  - rewrite fmap_cons. simpl. rewrite drain_cons. cbn [F.call].
    rewrite !filter_cons. unfold colocated at 1 3.
    destruct (decide (Some (getPath cfg (P.getConfigUri b None)) = configPath))
      as [Hb|Hb].
    + rewrite decide_False by tauto. cbn [app try_in_order].
      destruct (P.setPreference b name v r) as [|[|]|e]; try done.
      rewrite app_nil_r. specialize (IH lc). unfold outcome in *. simpl.
      by rewrite <- IH.
    + rewrite decide_True by done.
      assert (((F.RoundB <$> lb) ++ (F.RoundC <$> lc)) ++ [F.RoundC b]
              = (F.RoundB <$> lb) ++ (F.RoundC <$> (lc ++ [b]))) as ->
        by (by rewrite fmap_app, app_assoc).
      specialize (IH (lc ++ [b])). unfold outcome in *. simpl.
      rewrite IH. by rewrite <- !app_assoc.
Qed.

Lemma drain_roundA (la : list Provider) :
  ∀ lb,
    outcome (drain ((F.RoundA <$> la) ++ (F.RoundB <$> lb)))
    = in_order
        (filter (applies r) la
         ++ filter (colocated cfg configPath) (lb ++ filter (λ p, ¬ applies r p) la)
         ++ filter (λ p, ¬ colocated cfg configPath p)
              (lb ++ filter (λ p, ¬ applies r p) la)).
Proof.
  induction la as [|a la IH]; intros lb.
  - simpl. rewrite app_nil_r.
    pose proof (drain_roundB lb []) as H. simpl in H. by rewrite app_nil_r in H.
  - rewrite fmap_cons. simpl. rewrite drain_cons. cbn [F.call].
    destruct (decide (applies r a)) as [Ha|Ha].
    + rewrite (filter_cons_True (applies r)) by done.
      rewrite (filter_cons_False (λ p, ¬ applies r p)) by tauto.
      destruct Ha as [u Hu]. rewrite Hu. cbn [app try_in_order].
      destruct (P.setPreference a name v r) as [|[|]|e]; try done.
      rewrite app_nil_r. specialize (IH lb). unfold outcome in *. simpl.
      by rewrite <- IH.
    + rewrite (filter_cons_False (applies r)) by done.
      rewrite (filter_cons_True (λ p, ¬ applies r p)) by done.
      assert (P.getConfigUri a r = None) as ->.
      { destruct (P.getConfigUri a r) eqn:Hu; [|done]. exfalso. apply Ha. by eexists. }
      assert (((F.RoundA <$> la) ++ (F.RoundB <$> lb)) ++ [F.RoundB a]
              = (F.RoundA <$> la) ++ (F.RoundB <$> (lb ++ [a]))) as ->
        by (by rewrite fmap_app, app_assoc).
      specialize (IH (lb ++ [a])). unfold outcome in *. simpl.
      rewrite IH. by rewrite <- !app_assoc.
Qed.

(** Every call of a closure uses up some of the backlog. *)
Lemma drain_calls (n : nat) :
  ∀ q, (F.backlog q ≤ n)%nat → (F.calls (drain q) ≤ F.backlog q)%nat.
Proof.
  induction n as [|n IH]; intros q Hq.
  - destruct q as [|[p|p|p] q]; simpl in Hq; try lia. simp drain. simpl. lia.
  - destruct q as [|next q]; [simp drain; simpl; lia|].
    rewrite drain_cons.
    assert (∀ q1 q2, F.backlog (q1 ++ q2) = (F.backlog q1 + F.backlog q2)%nat) as Happ
      by (intros q1 q2; induction q1 as [|c q1 IHq]; simpl; [done | rewrite IHq; lia]).
    assert (F.backlog (q ++ (F.call cfg r configPath next).2) < F.backlog (next :: q))%nat
      as Hlt.
    { rewrite Happ. destruct next as [p|p|p]; simpl;
        repeat case_match; simpl; lia. }
    assert (1 ≤ F.backlog (next :: q))%nat as Hone
      by (destruct next; simpl; lia).
    destruct (F.call cfg r configPath next) as [[p|] pushed]; simpl in *.
    + destruct (P.setPreference p name v r) as [|[|]|e]; simpl; try lia.
      specialize (IH (q ++ pushed)). lia.
    + specialize (IH (q ++ pushed)). lia.
Qed.

End Routing.

Section Queueing.
Context (cfg : PreferenceConfigurations) (r : option string) (configName : string).

(** The first loop finds the reference path and queues one closure per
    provider of the target name, in canonical order. *)
Lemma enqueue_all (ps : list Provider) :
  ∀ configPath iterator,
    foldl (F.enqueue cfg r configName) (configPath, iterator) ps
    = (match configPath with
       | Some _ => configPath
       | None => referencePath cfg r ps
       end,
       iterator ++ (F.RoundA <$> filter (targets cfg configName) ps)).
Proof.
  induction ps as [|p ps IH]; intros configPath iterator.
  - simpl. rewrite app_nil_r. by destruct configPath.
  - change (foldl (F.enqueue cfg r configName) (configPath, iterator) (p :: ps))
      with (foldl (F.enqueue cfg r configName)
              (F.enqueue cfg r configName (configPath, iterator) p) ps).
    unfold F.enqueue at 2. rewrite filter_cons. unfold targets at 1.
    destruct (decide (getName cfg (P.getConfigUri p None) = configName));
      rewrite IH; unfold referencePath; simpl;
      destruct configPath; destruct (P.getConfigUri p r); simpl;
      by rewrite <- ?app_assoc.
Qed.

End Queueing.

Lemma try_in_order_cases name v r (ps : list Provider) :
  ((try_in_order name v r ps).1 = Fulfilled false
   ∧ (try_in_order name v r ps).2 = ps
   ∧ Forall (λ p, P.setPreference p name v r = Fulfilled false) ps)
  ∨ (∃ failed p rest,
       ps = failed ++ p :: rest
       ∧ Forall (λ q, P.setPreference q name v r = Fulfilled false) failed
       ∧ P.setPreference p name v r ≠ Fulfilled false
       ∧ (try_in_order name v r ps).2 = failed ++ [p]
       ∧ (try_in_order name v r ps).1 = P.setPreference p name v r).
Proof.
  induction ps as [|q ps IH]; simpl.
  - left. by split_and!.
  - destruct (P.setPreference q name v r) as [|[|]|e] eqn:Hq; simpl.
    + right. exists [], q, ps. by rewrite Hq.
    + right. exists [], q, ps. by rewrite Hq.
    + destruct IH as [(H1 & H2 & H3)|(failed & p & rest & -> & Hf & Hp & H2 & H1)].
      * left. split_and!; [done | by rewrite H2 | by constructor].
      * right. exists (q :: failed), p, rest.
        split_and!; [done | by constructor | done | by rewrite H2 | done].
    + right. exists [], q, ps. by rewrite Hq.
Qed.

Lemma try_in_order_prefix name v r (ps : list Provider) :
  (try_in_order name v r ps).2 `prefix_of` ps.
Proof.
  destruct (try_in_order_cases name v r ps)
    as [(_ & -> & _)|(failed & p & rest & -> & _ & _ & -> & _)].
  - done.
  - exists rest. by rewrite <- app_assoc.
Qed.

(** The queue of [setPreference] is drained in the order of the three
    rounds. *)
Lemma setPreference_outcome (lib : UriLib) (cfg : PreferenceConfigurations)
    (self : F.t) (name : string) (v : any) (r : option string) :
  let cands := F.getProviders lib self r in
  let matching := filter (targets cfg (targetConfigName cfg name)) cands in
  let reference := referencePath cfg r cands in
  let others := filter (λ p, ¬ applies r p) matching in
  outcome (F.setPreference lib cfg self name v r)
  = try_in_order name v r
      (filter (applies r) matching
       ++ filter (colocated cfg reference) others
       ++ filter (λ p, ¬ colocated cfg reference p) others).
Proof.
  intros cands matching reference others.
  unfold F.setPreference. fold (targetConfigName cfg name). fold cands.
  rewrite enqueue_all. simpl. fold matching. fold reference.
  pose proof (drain_roundA cfg name v r reference matching []) as H.
  simpl in H. by rewrite app_nil_r in H.
Qed.

(** C2, as amended.  [setPreference] tries the candidates whose config
    name is the target name in three rounds, each in canonical order:
    round A, the ones with a config URI for the resource; round B, of the
    others, the ones at the reference path; round C, the remaining ones.
    It goes on to the next provider for as long as the writes resolve to
    [false], and returns [false] when every write of the three rounds has
    done so, which includes the case of no provider of the target name.
    It stops at the first write that does anything else: with [true] when
    that write resolves to [true]; with the rejection when that write is
    rejected, the remaining providers being left untried; and it stays
    pending when that write never settles. *)
Theorem setPreference_three_rounds (lib : UriLib) (cfg : PreferenceConfigurations)
    (self : F.t) (name : string) (v : any) (r : option string) :
  let cands := F.getProviders lib self r in
  let matching := filter (targets cfg (targetConfigName cfg name)) cands in
  let reference := referencePath cfg r cands in
  let roundA := filter (applies r) matching in
  let others := filter (λ p, ¬ applies r p) matching in
  let roundB := filter (colocated cfg reference) others in
  let roundC := filter (λ p, ¬ colocated cfg reference p) others in
  let order := roundA ++ roundB ++ roundC in
  let w := F.setPreference lib cfg self name v r in
  write_order lib cfg self name r = order
  ∧ ((F.result w = Fulfilled false ∧ F.attempts w = order
      ∧ Forall (λ p, P.setPreference p name v r = Fulfilled false) order)
     ∨ (∃ failed p rest,
          order = failed ++ p :: rest
          ∧ Forall (λ q, P.setPreference q name v r = Fulfilled false) failed
          ∧ F.attempts w = failed ++ [p]
          ∧ F.result w = P.setPreference p name v r
          ∧ (P.setPreference p name v r = Fulfilled true
             ∨ (∃ e, P.setPreference p name v r = Rejected e)
             ∨ P.setPreference p name v r = Pending))).
Proof.
  intros cands matching reference roundA others roundB roundC order w.
  split; [done|].
  pose proof (setPreference_outcome lib cfg self name v r) as Ho.
  cbv zeta in Ho. fold cands matching reference others roundA roundB roundC order w in Ho.
  unfold outcome in Ho.
  destruct (try_in_order_cases name v r order)
    as [Hc|(failed & p & rest & Hsplit & Hf & Hp & Hatt & Hres)];
    rewrite <- Ho in *; simpl in *; [by left|].
  right. exists failed, p, rest. split_and!; try done.
  destruct (P.setPreference p name v r) as [|[|]|e]; eauto.
  done.
Qed.

(** C2 as stated fails: the write to the first provider of round A is
    rejected, and the call ends with that rejection, neither [true] nor
    [false], although the next provider of the round would accept the
    write. *)
Lemma setPreference_rejected_write_no_boolean :
  ¬ always_a_boolean Sample.lib Sample.configurations rejected_write
      "editor.tabSize" (JNum 8) (Some "file:///ws/a.txt").
Proof.
  intros [_ H].
  destruct (H [full_disk] spare []) as [Hres _].
  - by vm_compute.
  - repeat constructor. vm_compute. discriminate.
  - by vm_compute.
  - vm_compute in Hres. discriminate.
Qed.

(** The rejected write at work. *)
Example setPreference_rejected_write :
  let w := F.setPreference Sample.lib Sample.configurations rejected_write
             "editor.tabSize" (JNum 8) (Some "file:///ws/a.txt") in
  write_order Sample.lib Sample.configurations rejected_write "editor.tabSize"
    (Some "file:///ws/a.txt") = [full_disk; spare]
  ∧ P.setPreference spare "editor.tabSize" (JNum 8) (Some "file:///ws/a.txt")
    = Fulfilled true
  ∧ F.result w = Rejected "disk full" ∧ F.attempts w = [full_disk].
Proof. by vm_compute. Qed.

(** C9.  In a run of [setPreference] the three rounds are disjoint: put
    one after the other they are a rearrangement of the candidates of the
    target name, round A holds only providers with a config URI for the
    resource and rounds B and C only providers without one.  The writes
    are a beginning of that sequence, so no candidate is written to twice
    and a provider of round A is never tried again in round B or C,
    whatever its path.  The loop ends: it calls at most three closures per
    candidate of the target name. *)
Theorem setPreference_writes_at_most_once (lib : UriLib)
    (cfg : PreferenceConfigurations) (self : F.t) (name : string) (v : any)
    (r : option string) :
  let cands := F.getProviders lib self r in
  let matching := filter (targets cfg (targetConfigName cfg name)) cands in
  let reference := referencePath cfg r cands in
  let roundA := filter (applies r) matching in
  let others := filter (λ p, ¬ applies r p) matching in
  let roundB := filter (colocated cfg reference) others in
  let roundC := filter (λ p, ¬ colocated cfg reference p) others in
  let w := F.setPreference lib cfg self name v r in
  roundA ++ roundB ++ roundC ≡ₚ matching
  ∧ Forall (applies r) roundA
  ∧ Forall (λ p, ¬ applies r p) (roundB ++ roundC)
  ∧ (∃ skipped, F.attempts w ++ skipped = roundA ++ roundB ++ roundC)
  ∧ (∃ skipped, F.attempts w ++ skipped ≡ₚ matching)
  ∧ (F.calls w ≤ 3 * length matching)%nat.
Proof.
  intros cands matching reference roundA others roundB roundC w.
  pose proof (setPreference_outcome lib cfg self name v r) as Ho.
  cbv zeta in Ho. fold cands matching reference others roundA roundB roundC w in Ho.
  assert (roundB ++ roundC ≡ₚ others) as HBC by apply filter_app_complement.
  assert (roundA ++ roundB ++ roundC ≡ₚ matching) as Hperm.
  { rewrite HBC. apply filter_app_complement. }
  assert (F.attempts w `prefix_of` roundA ++ roundB ++ roundC) as [skipped Hpre].
  { change (F.attempts w) with (outcome w).2. rewrite Ho.
    apply try_in_order_prefix. }
  split_and!.
  - done.
  - apply Forall_forall. by intros p [? ?]%list_elem_of_filter.
  - rewrite HBC. apply Forall_forall. by intros p [? ?]%list_elem_of_filter.
  - by exists skipped.
  - exists skipped. by rewrite <- Hpre.
  - unfold w, F.setPreference. fold (targetConfigName cfg name). fold cands.
    rewrite enqueue_all. simpl. fold matching.
    etrans; [by eapply drain_calls|]. simpl.
    generalize matching. intros l.
    induction l as [|p l IH]; [done|].
    rewrite fmap_cons. cbn [F.backlog foldr F.pending length].
    unfold F.backlog in IH. lia.
Qed.

(** The escalation scenario: the candidates are [qa; qb; qc] and the
    writes are tried on [qc], then [qb], then [qa]. *)
Example setPreference_escalation :
  let w := F.setPreference Sample.lib Sample.configurations escalation
             "editor.tabSize" (JNum 8) (Some "file:///ws/sub/a.txt") in
  F.getProviders Sample.lib escalation (Some "file:///ws/sub/a.txt") = [qa; qb; qc]
  ∧ F.attempts w = [qc; qb; qa] ∧ F.result w = Fulfilled false ∧ F.calls w = 6%nat.
Proof. by vm_compute. Qed.

(* ================================================================== *)
(** ** Reconciliation: [updateProviders] *)
(* ================================================================== *)

Section MoreJsMapFacts.
Context {V : Type}.
Implicit Types (m : JsMap.t V) (k : string) (v : V).

Lemma JsMap_set_fresh m k v : k ∉ JsMap.keys m → JsMap.set m k v = m ++ [(k, v)].
Proof.
  unfold JsMap.keys. induction m as [|[k' v'] m IH]; simpl; [done|].
  rewrite not_elem_of_cons. intros [Hne Hm].
  rewrite decide_False by done. by rewrite IH.
Qed.

Lemma JsMap_elem_of_delete m k e : e ∈ JsMap.delete m k → e ∈ m.
Proof.
  induction m as [|[k' v'] m IH]; simpl; [done|].
  case_decide; rewrite ?elem_of_cons; [by right; apply IH|].
  intros [->|?]; [by left | right; by apply IH].
Qed.

End MoreJsMapFacts.

Section Reconcile.
Context (lib : UriLib) (cfg : PreferenceConfigurations).
Context (factory : FolderPreferenceProviderOptions → Provider).

(** The nested loops visit the pairs of the universe in order. *)
Lemma visit_folders_flat (roots : list FileStat) :
  ∀ acc,
    foldl (F.visit_folder lib cfg factory) acc roots
    = foldl (visit_pair factory) acc (universe_of lib cfg roots).
Proof.
  induction roots as [|f roots IH]; intros acc; [done|].
  unfold universe_of. rewrite bind_cons, foldl_app, foldl_fmap.
  simpl. rewrite IH. done.
Qed.

Lemma visit_all (l : list (FileStat * URI)) :
  ∀ td m cr, ∃ td' m' cr',
    foldl (visit_pair factory) (td, m, cr) l = (td', m', cr')
    ∧ (∀ k, k ∈ td' ↔ k ∈ td ∧ k ∉ keyOf <$> l)
    ∧ (∀ k, k ∈ JsMap.keys m' ↔ k ∈ JsMap.keys m ∨ k ∈ keyOf <$> l)
    ∧ ((∀ k, k ∈ keyOf <$> l → k ∈ JsMap.keys m) → m' = m ∧ cr' = cr)
    ∧ (∀ e, e ∈ m' → e ∈ m ∨ ∃ fc, fc ∈ l ∧ e = (keyOf fc, providerOf factory fc)).
Proof.
  induction l as [|fc l IH]; intros td m cr.
  - exists td, m, cr. simpl. split_and!; try done.
    + intros k. rewrite elem_of_nil. tauto.
    + intros k. rewrite elem_of_nil. tauto.
    + intros e He. by left.
  - change (foldl (visit_pair factory) (td, m, cr) (fc :: l))
      with (foldl (visit_pair factory) (visit_pair factory (td, m, cr) fc) l).
    unfold visit_pair at 2, F.visit, F.createProvider.
    fold (keyOf fc). fold (providerOf factory fc).
    destruct (JsMap.has m (keyOf fc)) eqn:Hhas.
    + apply JsMap_has_keys in Hhas.
      destruct (IH (JsSet.delete td (keyOf fc)) m cr)
        as (td' & m' & cr' & -> & Ha & Hb & Hc & Hd).
      exists td', m', cr'. split_and!; try done.
      * intros k. rewrite Ha, JsSet_elem_of_delete, fmap_cons, not_elem_of_cons. tauto.
      * intros k. rewrite Hb, fmap_cons, elem_of_cons.
        split; [tauto | intros [?|[->|?]]; tauto].
      * intros Hall. apply Hc. intros k Hk. apply Hall.
        rewrite fmap_cons, elem_of_cons. by right.
      * intros e He. destruct (Hd e He) as [?|(fc' & Hfc & ->)]; [by left|].
        right. exists fc'. split; [by apply elem_of_cons; right | done].
    + assert (keyOf fc ∉ JsMap.keys m) as Hnew.
      { intros Hin%JsMap_has_keys. congruence. }
      destruct (IH (JsSet.delete td (keyOf fc))
                  (JsMap.set m (keyOf fc) (providerOf factory fc))
                  (cr ++ [providerOf factory fc]))
        as (td' & m' & cr' & -> & Ha & Hb & Hc & Hd).
      exists td', m', cr'. split_and!; try done.
      * intros k. rewrite Ha, JsSet_elem_of_delete, fmap_cons, not_elem_of_cons. tauto.
      * intros k. rewrite Hb, JsMap_keys_set, fmap_cons, elem_of_cons. tauto.
      * intros Hall. exfalso. apply Hnew, Hall. rewrite fmap_cons. by left.
      * intros e He. destruct (Hd e He) as [Hin|(fc' & Hfc & ->)].
        -- rewrite JsMap_set_fresh in Hin by done.
           apply elem_of_app in Hin as [?|Heq]; [by left|].
           apply list_elem_of_singleton in Heq as ->.
           right. exists fc. split; [by left | done].
        -- right. exists fc'. split; [by apply elem_of_cons; right | done].
Qed.

Lemma sweep_all (td : JsSet.t) :
  ∀ (m : JsMap.t Provider) d, ∃ m' d',
    foldl F.sweep (m, d) td = (m', d')
    ∧ (∀ k, k ∈ JsMap.keys m' ↔ k ∈ JsMap.keys m ∧ k ∉ td)
    ∧ (∀ e, e ∈ m' → e ∈ m).
Proof.
  induction td as [|key td IH]; intros m d.
  - exists m, d. split_and!; try done. intros k. rewrite elem_of_nil. tauto.
  - change (foldl F.sweep (m, d) (key :: td))
      with (foldl F.sweep (F.sweep (m, d) key) td).
    unfold F.sweep at 2.
    destruct (JsMap.get m key) as [p|] eqn:Hget.
    + destruct (IH (JsMap.delete m key) (d ++ [p])) as (m' & d' & -> & Hk & He).
      exists m', d'. split_and!; try done.
      * intros k. rewrite Hk, JsMap_keys_delete, not_elem_of_cons. tauto.
      * intros e Hin. eapply JsMap_elem_of_delete. by apply He.
    + destruct (IH m d) as (m' & d' & -> & Hk & He).
      exists m', d'. split_and!; try done.
      intros k. rewrite Hk, not_elem_of_cons.
      assert (key ∉ JsMap.keys m) as Hnot.
      { rewrite <- JsMap_get_Some_keys, Hget. by intros [? ?]. }
      split; [|tauto]. intros [? ?]. split_and!; try done. congruence.
Qed.

(** After a reconciliation the keys of the map are the keys of the
    universe, and every entry is an old entry or was made by the factory
    for a pair of the universe. *)
Lemma updateProviders_keys (ws : WorkspaceService) (m : JsMap.t Provider) :
  (∀ k, k ∈ JsMap.keys (F.after (F.updateProviders lib cfg factory ws m))
        ↔ k ∈ keyOf <$> universe lib cfg ws)
  ∧ (∀ e, e ∈ F.after (F.updateProviders lib cfg factory ws m)
          → e ∈ m ∨ ∃ fc, fc ∈ universe lib cfg ws
                          ∧ e = (keyOf fc, providerOf factory fc)).
Proof.
  unfold F.updateProviders. rewrite visit_folders_flat. fold (universe lib cfg ws).
  destruct (visit_all (universe lib cfg ws) (JsSet.of_list (JsMap.keys m)) m [])
    as (td' & m' & cr' & -> & Ha & Hb & _ & Hd).
  destruct (sweep_all td' m' []) as (m'' & d'' & -> & Hk & He). simpl.
  split.
  - intros k. rewrite Hk, Hb, Ha, JsSet_elem_of_of_list.
    destruct (decide (k ∈ keyOf <$> universe lib cfg ws)); tauto.
  - intros e Hin. apply Hd, He, Hin.
Qed.

Lemma updateProviders_again (ws : WorkspaceService) (m : JsMap.t Provider) :
  (∀ k, k ∈ JsMap.keys m ↔ k ∈ keyOf <$> universe lib cfg ws) →
  F.updateProviders lib cfg factory ws m
  = {| F.after := m; F.created := []; F.disposed := [] |}.
Proof.
  intros Hkeys.
  unfold F.updateProviders. rewrite visit_folders_flat. fold (universe lib cfg ws).
  destruct (visit_all (universe lib cfg ws) (JsSet.of_list (JsMap.keys m)) m [])
    as (td' & m' & cr' & -> & Ha & _ & Hc & _).
  destruct Hc as [-> ->]; [intros k; apply Hkeys|].
  assert (td' = []) as ->.
  { apply elem_of_nil_inv. intros k. rewrite Ha, JsSet_elem_of_of_list, Hkeys. tauto. }
  done.
Qed.

End Reconcile.

(** C6.  Reconciling a second time against the same roots and the same
    config URIs creates no provider, disposes no provider and leaves the
    provider map as it is. *)
Theorem updateProviders_idempotent (lib : UriLib) (cfg : PreferenceConfigurations)
    (factory : FolderPreferenceProviderOptions → Provider)
    (ws : WorkspaceService) (m : JsMap.t Provider) :
  let first := F.updateProviders lib cfg factory ws m in
  let second := F.updateProviders lib cfg factory ws (F.after first) in
  F.after second = F.after first
  ∧ F.created second = []
  ∧ F.disposed second = [].
Proof.
  intros first second. unfold second.
  rewrite updateProviders_again; [done|].
  apply updateProviders_keys.
Qed.

Lemma elem_of_universe (lib : UriLib) (cfg : PreferenceConfigurations)
    (ws : WorkspaceService) (fc : FileStat * URI) :
  fc ∈ universe lib cfg ws
  ↔ fc.1 ∈ tryGetRoots ws ∧ fc.2 ∈ getUris cfg (new_URI lib (uri fc.1)).
Proof.
  unfold universe, universe_of. rewrite list_elem_of_bind. split.
  - intros (f & (c & -> & Hc)%list_elem_of_fmap & Hf). done.
  - intros [Hf Hc]. exists fc.1. split; [|done].
    apply list_elem_of_fmap. exists fc.2. split; [by destruct fc | done].
Qed.

(** C5, as amended.  [getDomain] returns the URIs of the roots the
    workspace service reports, in the reported order, whatever the
    provider map holds.  A reconciliation against these roots leaves in
    the map exactly the keys of the config URIs enumerated for them, and
    starting from an empty map every provider in it was made by the
    factory for one of these roots and one of its config URIs; a root for
    which no config URI is enumerated has no provider. *)
Theorem getDomain_reports_roots (lib : UriLib) (cfg : PreferenceConfigurations)
    (factory : FolderPreferenceProviderOptions → Provider)
    (ws : WorkspaceService) (self : F.t) :
  F.getDomain ws self = uri <$> tryGetRoots ws
  ∧ (∀ k, k ∈ JsMap.keys
              (F.after (F.updateProviders lib cfg factory ws (F.providers self)))
          ↔ ∃ f c, f ∈ tryGetRoots ws
                   ∧ c ∈ getUris cfg (new_URI lib (uri f))
                   ∧ toString c = k)
  ∧ Forall (λ e, ∃ f c,
              f ∈ tryGetRoots ws ∧ uri f ∈ F.getDomain ws self
              ∧ c ∈ getUris cfg (new_URI lib (uri f))
              ∧ e = (toString c, factory {| folder := f; optConfigUri := c |}))
      (F.after (F.updateProviders lib cfg factory ws [])).
Proof.
  split_and!.
  - done.
  - intros k. rewrite (proj1 (updateProviders_keys lib cfg factory ws _)).
    rewrite list_elem_of_fmap. split.
    + intros ([f c] & -> & [Hf Hc]%elem_of_universe). by exists f, c.
    + intros (f & c & Hf & Hc & <-). exists (f, c). split; [done|].
      by apply elem_of_universe.
  - apply Forall_forall. intros e He.
    apply (proj2 (updateProviders_keys lib cfg factory ws [])) in He
      as [Hin|([f c] & [Hf Hc]%elem_of_universe & ->)]; [by apply elem_of_nil in Hin|].
    exists f, c. split_and!; try done.
    unfold F.getDomain. by apply list_elem_of_fmap_2.
Qed.

(** C5 as stated fails: after [init] on a workspace whose only root has no
    config URI, the domain holds the root and no provider is bound to
    it. *)
Lemma getDomain_not_bound_folders :
  ¬ domain_is_bound_folders (Sample.workspace ["file:///ws"])
      (F.init Sample.lib no_locations Sample.factory
         (Sample.workspace ["file:///ws"]) F.fresh).
Proof.
  intros H. destruct (H "file:///ws") as [Hto _].
  destruct Hto as (p & Hp & _); [by left|].
  vm_compute in Hp. by apply elem_of_nil in Hp.
Qed.

(* ================================================================== *)
(** ** Readiness: [init] and [ready] *)
(* ================================================================== *)

Lemma promise_all_caught (ps : list Provider) :
  match promise_all (F.caught <$> ps) with
  | Fulfilled _ => Forall (λ p, settled (P.ready p) = true) ps
  | Pending => Exists (λ p, P.ready p = Pending) ps
  | Rejected _ => False
  end.
Proof.
  induction ps as [|p ps IH]; [constructor|].
  rewrite fmap_cons. cbn [promise_all]. unfold F.caught at 1.
  destruct (P.ready p) as [|[]|e] eqn:Hp; cbn [promise_catch];
    destruct (promise_all (F.caught <$> ps)); try done.
  - by apply Exists_cons_hd.
  - by apply Exists_cons_hd.
  - by apply Exists_cons_tl.
  - constructor; [by rewrite Hp | done].
  - by apply Exists_cons_tl.
  - constructor; [by rewrite Hp | done].
Qed.

(** The state of [ready] once the ready promises are collected. *)
Lemma ready_of_collected (self : F.t) (ps : list Provider) :
  F.readyPromises self = Some ps →
  (F.ready self = Fulfilled tt ↔ Forall (λ p, settled (P.ready p) = true) ps)
  ∧ (F.ready self = Pending ↔ Exists (λ p, P.ready p = Pending) ps)
  ∧ (∀ e, F.ready self ≠ Rejected e).
Proof.
  intros Hps. unfold F.ready. rewrite Hps.
  pose proof (promise_all_caught ps) as Hall.
  destruct (promise_all (F.caught <$> ps)) as [|l|e]; [| |done].
  - split_and!; [split; [done|] | done | done].
    intros Hs. exfalso. apply Exists_exists in Hall as (p & Hin & Hp).
    rewrite Forall_forall in Hs. specialize (Hs p Hin). by rewrite Hp in Hs.
  - split_and!; [done | split; [done|] | done].
    intros (p & Hin & Hp)%Exists_exists. exfalso.
    rewrite Forall_forall in Hall. specialize (Hall p Hin). by rewrite Hp in Hall.
Qed.

(** C7.  Once [init] has passed the wait for the roots, [ready] is
    resolved exactly when every provider in the map at that time has
    settled its own [ready], fulfilled or rejected alike; it stays
    pending while one of them is pending; it is never rejected; the
    rejections are the errors printed; and providers that a later
    reconciliation adds have no part in it. *)
Theorem ready_when_all_settled (lib : UriLib) (cfg : PreferenceConfigurations)
    (factory : FolderPreferenceProviderOptions → Provider)
    (ws : WorkspaceService) (self : F.t) (rs : list FileStat) :
  roots ws = Fulfilled rs →
  let started := F.init lib cfg factory ws self in
  let live := JsMap.values (F.providers started) in
  (F.ready started = Fulfilled tt
   ↔ Forall (λ p, settled (P.ready p) = true) live)
  ∧ (F.ready started = Pending ↔ Exists (λ p, P.ready p = Pending) live)
  ∧ (∀ e, F.ready started ≠ Rejected e)
  ∧ F.logged started
    = omap (λ p, match P.ready p with Rejected e => Some e | _ => None end) live
  ∧ (∀ ws', F.ready (F.onWorkspaceChanged lib cfg factory ws' started)
            = F.ready started).
Proof.
  intros Hroots started live.
  assert (F.readyPromises started = Some live) as Hps
    by (unfold live, started, F.init; by rewrite Hroots).
  destruct (ready_of_collected started live Hps) as (H1 & H2 & H3).
  split_and!; try done.
  unfold F.logged. by rewrite Hps.
Qed.

(** The readiness rule on a workspace with one root. *)
Lemma ready_when_all_settled_witness :
  roots (Sample.workspace ["file:///ws"])
  = Fulfilled (tryGetRoots (Sample.workspace ["file:///ws"]))
  ∧ (let started :=
       F.init Sample.lib Sample.configurations Sample.factory
         (Sample.workspace ["file:///ws"]) F.fresh in
     let live := JsMap.values (F.providers started) in
     (F.ready started = Fulfilled tt
      ↔ Forall (λ p, settled (P.ready p) = true) live)
     ∧ (F.ready started = Pending ↔ Exists (λ p, P.ready p = Pending) live)
     ∧ (∀ e, F.ready started ≠ Rejected e)
     ∧ F.logged started
       = omap (λ p, match P.ready p with Rejected e => Some e | _ => None end) live
     ∧ (∀ ws', F.ready (F.onWorkspaceChanged Sample.lib Sample.configurations
                          Sample.factory ws' started)
               = F.ready started)).
Proof.
  split; [reflexivity|].
  exact (ready_when_all_settled Sample.lib Sample.configurations Sample.factory
           (Sample.workspace ["file:///ws"]) F.fresh _ eq_refl).
Defined.

(** A provider that fails to initialise: [ready] is resolved all the same
    and the error is printed. *)
Example ready_despite_rejection :
  let started :=
    F.init Sample.lib Sample.configurations Sample.factory
      (Sample.workspace ["file:///ws"]) F.fresh in
  P.ready <$> JsMap.values (F.providers started)
  = [Fulfilled tt; Rejected "unreadable"]
  ∧ F.ready started = Fulfilled tt
  ∧ F.logged started = ["unreadable"].
Proof. by vm_compute. Qed.

(* ================================================================== *)
(** ** A run through all methods *)
(* ================================================================== *)

(** Two roots, the resource below the first: reads give the value of the
    first root and the write goes to its provider. *)
Example two_folders_scenario :
  let r := "file:///root1/a.txt" in
  let self := two_folders r in
  let w := F.setPreference Sample.lib Sample.configurations self
             "editor.tabSize" (JNum 8) (Some r) in
  F.getDomain (Sample.workspace ["file:///root1"; "file:///root2"]) self
  = ["file:///root1"; "file:///root2"]
  ∧ F.getProviders Sample.lib self (Some r) = [root1_settings r]
  ∧ F.resolve Sample.lib self "editor.tabSize" (Some r)
    = mkResolved (Some (JNum 4)) (Some (Sample.parse "file:///root1/.theia/settings.json"))
  ∧ F.getPreferences Sample.lib Sample.configurations self (Some r) !! "editor.tabSize"
    = Some (JNum 4)
  ∧ F.getConfigUri Sample.configurations self (Some r)
    = Some (Sample.parse "file:///root1/.theia/settings.json")
  ∧ F.result w = Fulfilled true ∧ F.attempts w = [root1_settings r].
Proof. by vm_compute. Qed.

(* ================================================================== *)
(** ** Further properties of reconciliation *)
(* ================================================================== *)

Lemma filter_ext_elem {A} (P Q : A → Prop) `{!∀ x, Decision (P x)}
    `{!∀ x, Decision (Q x)} (l : list A) :
  (∀ x, x ∈ l → (P x ↔ Q x)) → filter P l = filter Q l.
Proof.
  induction l as [|x l IH]; intros Hext; [done|].
  rewrite !filter_cons.
  assert (P x ↔ Q x) as Hx by (apply Hext; by left).
  rewrite IH by (intros y Hy; apply Hext; by right).
  destruct (decide (P x)), (decide (Q x)); tauto.
Qed.

Lemma filter_all_elem {A} (P : A → Prop) `{!∀ x, Decision (P x)} (l : list A) :
  (∀ x, x ∈ l → P x) → filter P l = l.
Proof.
  induction l as [|x l IH]; intros Hall; [done|].
  rewrite filter_cons_True by (apply Hall; by left).
  rewrite IH; [done|]. intros y Hy. apply Hall. by right.
Qed.

Section DeleteFacts.
Context {V : Type}.
Implicit Types (m : JsMap.t V) (k : string).

Lemma JsMap_delete_filter m k : JsMap.delete m k = filter (λ e, e.1 ≠ k) m.
Proof.
  induction m as [|[k' v'] m IH]; [done|]. simpl. rewrite filter_cons. simpl.
  destruct (decide (k' = k)) as [->|Hne].
  - rewrite decide_False by tauto. done.
  - rewrite decide_True by done. by rewrite IH.
Qed.

Lemma JsMap_get_delete_ne m k k' :
  k ≠ k' → JsMap.get (JsMap.delete m k) k' = JsMap.get m k'.
Proof.
  intros Hne. induction m as [|[k0 v0] m IH]; [done|]. simpl.
  destruct (decide (k0 = k)) as [->|Hk0]; simpl.
  - by rewrite decide_False.
  - by rewrite IH.
Qed.

Lemma JsMap_get_app_l m1 m2 k :
  k ∈ JsMap.keys m1 → JsMap.get (m1 ++ m2) k = JsMap.get m1 k.
Proof.
  unfold JsMap.keys. induction m1 as [|[k0 v0] m1 IH]; simpl.
  - by intros ?%elem_of_nil.
  - rewrite elem_of_cons. destruct (decide (k0 = k)); [done|].
    intros [?|?]; [congruence | by apply IH].
Qed.

End DeleteFacts.

Lemma JsSet_delete_filter (s : JsSet.t) (k : string) :
  JsSet.delete s k = filter (λ x, x ≠ k) s.
Proof.
  induction s as [|k' s IH]; [done|]. simpl. rewrite filter_cons.
  destruct (decide (k' = k)) as [->|Hne].
  - rewrite decide_False by tauto. done.
  - rewrite decide_True by done. by rewrite IH.
Qed.

Lemma JsSet_of_list_NoDup (l : list string) : NoDup l → JsSet.of_list l = l.
Proof.
  unfold JsSet.of_list.
  assert (∀ s, NoDup (s ++ l) → foldl JsSet.add s l = s ++ l) as H.
  { induction l as [|x l IH]; intros s Hs; simpl.
    - by rewrite app_nil_r.
    - unfold JsSet.add at 2, JsSet.has.
      rewrite bool_decide_eq_false_2.
      + rewrite IH; rewrite <- app_assoc; done.
      + apply NoDup_app in Hs as (_ & Hdis & _). intros Hin.
        apply (Hdis x Hin). by left. }
  intros Hl. by rewrite H.
Qed.

Lemma omap_cons {A B} (f : A → option B) (l : list A) (x : A) :
  omap f (x :: l) = match f x with Some y => y :: omap f l | None => omap f l end.
Proof. done. Qed.

Section ReconcileShape.
Context (lib : UriLib) (cfg : PreferenceConfigurations).
Context (factory : FolderPreferenceProviderOptions → Provider).

(** The loops over the universe only append to the map. *)
Lemma visit_appends (l : list (FileStat * URI)) :
  ∀ td (m : JsMap.t Provider) cr,
    foldl (visit_pair factory) (td, m, cr) l
    = (foldl JsSet.delete td (keyOf <$> l),
       m ++ additions factory (JsMap.keys m) l,
       cr ++ (additions factory (JsMap.keys m) l).*2).
Proof.
  induction l as [|fc l IH]; intros td m cr.
  - simpl. by rewrite !app_nil_r.
  - change (foldl (visit_pair factory) (td, m, cr) (fc :: l))
      with (foldl (visit_pair factory) (visit_pair factory (td, m, cr) fc) l).
    unfold visit_pair at 2, F.visit, F.createProvider.
    fold (keyOf fc). fold (providerOf factory fc). cbn [additions fmap list_fmap foldl].
    destruct (JsMap.has m (keyOf fc)) eqn:Hhas.
    + apply JsMap_has_keys in Hhas. rewrite decide_True by done. apply IH.
    + assert (keyOf fc ∉ JsMap.keys m) as Hnew.
      { intros Hin%JsMap_has_keys. congruence. }
      rewrite decide_False by done. rewrite IH, JsMap_set_fresh by done.
      unfold JsMap.keys. rewrite fmap_app. simpl.
      by rewrite <- !app_assoc.
Qed.

Lemma additions_keys (l : list (FileStat * URI)) :
  ∀ known,
    NoDup (additions factory known l).*1
    ∧ (∀ k, k ∈ (additions factory known l).*1
            ↔ k ∈ keyOf <$> l ∧ k ∉ known).
Proof.
  induction l as [|fc l IH]; intros known; simpl.
  - split; [constructor|]. intros k. rewrite elem_of_nil. tauto.
  - case_decide as Hin.
    + destruct (IH known) as [Hnd Hk]. split; [done|].
      intros k. rewrite Hk, elem_of_cons. split; [tauto|].
      intros [[->|?] ?]; tauto.
    + destruct (IH (known ++ [keyOf fc])) as [Hnd Hk]. split.
      * simpl. constructor; [|done]. rewrite Hk, elem_of_app, list_elem_of_singleton.
        tauto.
      * intros k. simpl. rewrite !elem_of_cons, Hk, elem_of_app, list_elem_of_singleton.
        destruct (decide (k = keyOf fc)) as [->|]; tauto.
Qed.

Lemma sweep_map (td : JsSet.t) :
  ∀ (m : JsMap.t Provider) d,
    (foldl F.sweep (m, d) td).1 = filter (λ e, e.1 ∉ td) m.
Proof.
  induction td as [|key td IH]; intros m d.
  - simpl. symmetry. apply filter_all_elem. intros e _. apply not_elem_of_nil.
  - change (foldl F.sweep (m, d) (key :: td))
      with (foldl F.sweep (F.sweep (m, d) key) td).
    assert (∃ d', F.sweep (m, d) key = (JsMap.delete m key, d')) as [d' ->].
    { unfold F.sweep. destruct (JsMap.get m key) eqn:Hget; [by eexists|].
      exists d. f_equal. rewrite JsMap_delete_filter. symmetry.
      apply filter_all_elem. intros e He Heq. simpl in Heq. subst key.
      assert (is_Some (JsMap.get m e.1)) as [? ?]; [|congruence].
      apply JsMap_get_Some_keys. unfold JsMap.keys. by apply list_elem_of_fmap_2. }
    rewrite IH, JsMap_delete_filter, list_filter_filter.
    apply list_filter_iff. intros e. rewrite not_elem_of_cons. tauto.
Qed.

Lemma sweep_disposed (td : JsSet.t) :
  ∀ (m : JsMap.t Provider) d,
    NoDup td →
    (foldl F.sweep (m, d) td).2 = d ++ omap (JsMap.get m) td.
Proof.
  induction td as [|key td IH]; intros m d Hnd.
  - simpl. by rewrite app_nil_r.
  - change (foldl F.sweep (m, d) (key :: td))
      with (foldl F.sweep (F.sweep (m, d) key) td).
    apply NoDup_cons in Hnd as [Hkey Hnd].
    assert (omap (JsMap.get (JsMap.delete m key)) td = omap (JsMap.get m) td) as Hsame.
    { clear IH Hnd. induction td as [|k td IH]; [done|].
      apply not_elem_of_cons in Hkey as [Hne Hkey].
      rewrite !(omap_cons _ _ k), JsMap_get_delete_ne by done. by rewrite IH. }
    rewrite (omap_cons _ _ key). unfold F.sweep.
    destruct (JsMap.get m key) as [p|] eqn:Hget.
    + rewrite IH by done. rewrite Hsame. by rewrite <- app_assoc.
    + by rewrite IH.
Qed.

Lemma foldl_delete_filter (ks : list string) :
  ∀ td : JsSet.t, foldl JsSet.delete td ks = filter (λ k, k ∉ ks) td.
Proof.
  induction ks as [|k ks IH]; intros td.
  - simpl. symmetry. apply filter_all_elem. intros x _. apply not_elem_of_nil.
  - simpl. rewrite IH, JsSet_delete_filter, list_filter_filter.
    apply list_filter_iff. intros x. rewrite not_elem_of_cons. tauto.
Qed.

End ReconcileShape.

Lemma fst_filter_keys (P : string → Prop) `{!∀ k, Decision (P k)}
    `{!∀ e : string * Provider, Decision (P e.1)} (m : JsMap.t Provider) :
  (filter (λ e, P e.1) m).*1 = filter P (JsMap.keys m).
Proof.
  unfold JsMap.keys. induction m as [|[k v] m IH]; [done|].
  rewrite fmap_cons. cbn [fst].
  destruct (decide (P k)) as [Hk|Hk].
  - rewrite (filter_cons_True (λ e, P e.1)), (filter_cons_True P) by done.
    rewrite fmap_cons. cbn [fst]. by rewrite IH.
  - rewrite (filter_cons_False (λ e, P e.1)), (filter_cons_False P) by done.
    done.
Qed.

Lemma omap_ext_elem {A B} (f g : A → option B) (l : list A) :
  (∀ x, x ∈ l → f x = g x) → omap f l = omap g l.
Proof.
  induction l as [|x l IH]; intros Hfg; [done|].
  rewrite !(omap_cons _ _ x), (Hfg x) by (by left).
  rewrite IH; [done|]. intros y Hy. apply Hfg. by right.
Qed.

Lemma JsMap_get_cons_eq {V} (m : JsMap.t V) k v :
  JsMap.get ((k, v) :: m) k = Some v.
Proof. simpl. by rewrite decide_True. Qed.

Lemma JsMap_get_cons_ne {V} (m : JsMap.t V) k k' v :
  k ≠ k' → JsMap.get ((k, v) :: m) k' = JsMap.get m k'.
Proof. intros Hne. simpl. by rewrite decide_False. Qed.

Lemma omap_get_filter_keys (P : string → Prop) `{!∀ k, Decision (P k)}
    `{!∀ e : string * Provider, Decision (P e.1)} (m : JsMap.t Provider) :
  NoDup (JsMap.keys m) →
  omap (JsMap.get m) (filter P (JsMap.keys m)) = (filter (λ e, P e.1) m).*2.
Proof.
  unfold JsMap.keys. induction m as [|[k v] m IH]; [done|].
  rewrite fmap_cons. cbn [fst]. intros [Hk Hnd]%NoDup_cons.
  assert (omap (JsMap.get ((k, v) :: m)) (filter P m.*1)
          = omap (JsMap.get m) (filter P m.*1)) as Hskip.
  { apply omap_ext_elem. intros k' [_ Hk']%list_elem_of_filter.
    apply JsMap_get_cons_ne. congruence. }
  destruct (decide (P k)) as [HP|HP].
  - rewrite (filter_cons_True (λ e, P e.1)), (filter_cons_True P) by done.
    rewrite omap_cons, JsMap_get_cons_eq, fmap_cons. cbn [snd].
    by rewrite Hskip, IH.
  - rewrite (filter_cons_False (λ e, P e.1)), (filter_cons_False P) by done.
    by rewrite Hskip, IH.
Qed.

(** X1.  A reconciliation keeps the entries of the map whose key is still
    in the universe, each with the provider it had and in the order they
    had, and appends after them one new provider per key of the universe
    that was not in the map, in the order of enumeration (the first pair
    of a key makes the provider).  The providers it creates are exactly
    the appended ones. *)
Theorem updateProviders_keeps_and_appends (lib : UriLib)
    (cfg : PreferenceConfigurations)
    (factory : FolderPreferenceProviderOptions → Provider)
    (ws : WorkspaceService) (m : JsMap.t Provider) :
  let added := additions factory (JsMap.keys m) (universe lib cfg ws) in
  let run := F.updateProviders lib cfg factory ws m in
  F.after run = filter (λ e, e.1 ∈ keyOf <$> universe lib cfg ws) m ++ added
  ∧ F.created run = added.*2.
Proof.
  intros added run. unfold run, F.updateProviders.
  rewrite visit_folders_flat. fold (universe lib cfg ws).
  rewrite visit_appends. fold added.
  pose proof (sweep_map
                (foldl JsSet.delete (JsSet.of_list (JsMap.keys m))
                   (keyOf <$> universe lib cfg ws))
                (m ++ added) []) as Hmap.
  destruct (foldl F.sweep _ _) as [m' d']. simpl in *. split; [|done].
  rewrite Hmap, filter_app. f_equal.
  - apply filter_ext_elem. intros e He.
    rewrite foldl_delete_filter, list_elem_of_filter, JsSet_elem_of_of_list.
    assert (e.1 ∈ JsMap.keys m) by (by apply list_elem_of_fmap_2).
    destruct (decide (e.1 ∈ keyOf <$> universe lib cfg ws)); tauto.
  - apply filter_all_elem. intros e He.
    rewrite foldl_delete_filter, list_elem_of_filter.
    assert (e.1 ∈ added.*1) as Hin by (by apply list_elem_of_fmap_2).
    apply (additions_keys factory) in Hin. tauto.
Qed.

(** X2.  On a map with pairwise different keys, a reconciliation disposes
    exactly the providers whose key has left the universe, each once and
    in the order of the map; none of their keys is left in the map, and
    the keys of the map stay pairwise different. *)
Theorem updateProviders_disposes_the_removed (lib : UriLib)
    (cfg : PreferenceConfigurations)
    (factory : FolderPreferenceProviderOptions → Provider)
    (ws : WorkspaceService) (m : JsMap.t Provider) :
  NoDup (JsMap.keys m) →
  let gone := filter (λ e, e.1 ∉ keyOf <$> universe lib cfg ws) m in
  let run := F.updateProviders lib cfg factory ws m in
  F.disposed run = gone.*2
  ∧ Forall (λ e, e.1 ∉ JsMap.keys (F.after run)) gone
  ∧ NoDup (JsMap.keys (F.after run)).
Proof.
  intros Hnd gone run.
  destruct (updateProviders_keeps_and_appends lib cfg factory ws m) as [Hafter _].
  fold run in Hafter.
  split_and!.
  - unfold run, F.updateProviders.
    rewrite visit_folders_flat. fold (universe lib cfg ws).
    rewrite visit_appends.
    set (added := additions factory (JsMap.keys m) (universe lib cfg ws)).
    set (td := foldl JsSet.delete (JsSet.of_list (JsMap.keys m))
                 (keyOf <$> universe lib cfg ws)).
    assert (td = filter (λ k, k ∉ keyOf <$> universe lib cfg ws) (JsMap.keys m)) as Htd.
    { unfold td. by rewrite foldl_delete_filter, JsSet_of_list_NoDup. }
    pose proof (sweep_disposed td (m ++ added) []) as Hd.
    destruct (foldl F.sweep _ _) as [m' d']. simpl in *.
    rewrite Hd by (rewrite Htd; by apply NoDup_filter).
    rewrite Htd.
    rewrite (omap_ext_elem _ (JsMap.get m)).
    + unfold gone.
      by apply (omap_get_filter_keys (λ k, k ∉ keyOf <$> universe lib cfg ws)).
    + intros k [_ Hk]%list_elem_of_filter. by apply JsMap_get_app_l.
  - apply Forall_forall. intros e [He _]%list_elem_of_filter.
    intros Hin. apply He. by apply (updateProviders_keys lib cfg factory ws m).
  - rewrite Hafter. unfold JsMap.keys. rewrite fmap_app.
    rewrite (fst_filter_keys (λ k, k ∈ keyOf <$> universe lib cfg ws)).
    apply NoDup_app. split_and!.
    + by apply NoDup_filter.
    + intros k [_ Hk]%list_elem_of_filter Hadd.
      apply (additions_keys factory) in Hadd. tauto.
    + apply additions_keys.
Qed.

(** The rule of X2 when the root [file:///a] gives way to [file:///b]. *)
Lemma updateProviders_disposes_the_removed_witness :
  NoDup (JsMap.keys (F.providers before_change))
  ∧ (let ws := Sample.workspace ["file:///b"] in
     let m := F.providers before_change in
     let gone :=
       filter (λ e, e.1 ∉ keyOf <$> universe Sample.lib Sample.configurations ws) m in
     let run :=
       F.updateProviders Sample.lib Sample.configurations Sample.factory ws m in
     F.disposed run = gone.*2
     ∧ Forall (λ e, e.1 ∉ JsMap.keys (F.after run)) gone
     ∧ NoDup (JsMap.keys (F.after run))).
Proof.
  assert (NoDup (JsMap.keys (F.providers before_change))) as Hnd.
  { apply (bool_decide_unpack _). by vm_compute. }
  split; [exact Hnd|].
  exact (updateProviders_disposes_the_removed Sample.lib Sample.configurations
           Sample.factory (Sample.workspace ["file:///b"]) _ Hnd).
Defined.

(** The change of root at work: both providers of [file:///a] are disposed
    and the two of [file:///b] are created. *)
Example updateProviders_change_of_root :
  let run :=
    F.updateProviders Sample.lib Sample.configurations Sample.factory
      (Sample.workspace ["file:///b"]) (F.providers before_change) in
  JsMap.keys (F.providers before_change)
  = ["file:///a/.theia/settings.json"; "file:///a/.vscode/settings.json"]
  ∧ JsMap.keys (F.after run)
    = ["file:///b/.theia/settings.json"; "file:///b/.vscode/settings.json"]
  ∧ folderOf <$> F.disposed run = ["file:///a"; "file:///a"]
  ∧ folderOf <$> F.created run = ["file:///b"; "file:///b"].
Proof. by vm_compute. Qed.

(* ================================================================== *)
(** ** Further properties of the readers *)
(* ================================================================== *)

(** X3.  The candidates are a part of the registry in canonical order and
    never mix folders: either there is none, or they are all the
    providers of one folder, whose URI is not the empty string. *)
Theorem getProviders_one_folder_in_order (lib : UriLib) (self : F.t)
    (r : option string) :
  F.getProviders lib self r `sublist_of` JsMap.values (F.providers self)
  ∧ (F.getProviders lib self r = []
     ∨ ∃ u, u ≠ ""
            ∧ F.getProviders lib self r
              = filter (λ p, folderOf p = u) (JsMap.values (F.providers self))).
Proof.
  assert (F.getProviders lib self r = []
          ∨ ∃ u, u ≠ ""
                 ∧ F.getProviders lib self r
                   = filter (λ p, folderOf p = u) (JsMap.values (F.providers self)))
    as Hshape.
  { destruct r as [r|]; [|by left].
    destruct (decide (r = "")) as [->|Hr]; [by left|].
    rewrite getProviders_pick by done.
    destruct (F.pick_uri _) as [u|]; [|by left].
    case_decide; [by left|]. right. by exists u. }
  split; [|done].
  destruct Hshape as [->|(u & _ & ->)]; [apply sublist_nil_l | apply sublist_filter].
Qed.

Section Agreement.
Context (cfg : PreferenceConfigurations) (name : string) (r : option string).

Lemma contributors_distinct (ps : list Provider) :
  NoDup (omap (nameFor cfg r) ps) →
  contributors cfg r ps = filter (applies r) ps.
Proof.
  induction ps as [|p ps IH]; [done|].
  rewrite omap_cons. cbn [contributors]. unfold applies at 1.
  destruct (nameFor cfg r p) as [n|] eqn:Hn.
  - intros [Hnew Hnd]%NoDup_cons.
    assert (is_Some (P.getConfigUri p r)) as Hp.
    { unfold nameFor in Hn. destruct (P.getConfigUri p r); [by eexists | done]. }
    rewrite filter_cons_True by done.
    rewrite decide_False; [by rewrite IH|].
    intros (q & Hq & Hin)%list_elem_of_fmap. apply Hnew.
    apply list_elem_of_omap. by exists q.
  - intros Hnd.
    rewrite filter_cons_False; [by apply IH|].
    unfold nameFor in Hn. intros [u Hu]. by rewrite Hu in Hn.
Qed.

Lemma resolve_from_union (ps : list Provider) :
  Forall (coherent name r) ps →
  value (F.resolve_from ps name r)
  = (⋃ (P.getPreferences <$> filter (applies r) ps)) !! name.
Proof.
  induction ps as [|p ps IH]; [done|].
  intros [Hp Hps]%Forall_cons. specialize (IH Hps).
  cbn [F.resolve_from]. unfold coherent in Hp.
  destruct (value (P.resolve p name r)) as [v|] eqn:Hv;
    [destruct (configUri (P.resolve p name r)) as [u|] eqn:Hu|].
  - destruct Hp as [Hpv Hpu].
    rewrite filter_cons_True by (by exists u).
    rewrite fmap_cons. simpl. symmetry. by apply lookup_union_Some_l.
  - rewrite IH. destruct Hp as [Hnone|Hnone].
    + destruct (decide (applies r p)).
      * rewrite filter_cons_True by done. rewrite fmap_cons. simpl.
        by rewrite lookup_union_r.
      * by rewrite filter_cons_False.
    + rewrite filter_cons_False; [done|]. intros [? ?]. congruence.
  - rewrite IH. destruct Hp as [Hnone|Hnone].
    + destruct (decide (applies r p)).
      * rewrite filter_cons_True by done. rewrite fmap_cons. simpl.
        by rewrite lookup_union_r.
      * by rewrite filter_cons_False.
    + rewrite filter_cons_False; [done|]. intros [? ?]. congruence.
Qed.

End Agreement.

(** X4.  When the candidates that have a config URI for the resource have
    pairwise different config names, every one of them contributes:
    [getPreferences] is the merge of their maps in canonical order, the
    earlier map winning. *)
Theorem getPreferences_distinct_names (lib : UriLib)
    (cfg : PreferenceConfigurations) (self : F.t) (r : option string) :
  NoDup (omap (nameFor cfg r) (F.getProviders lib self r)) →
  F.getPreferences lib cfg self r
  = ⋃ (P.getPreferences <$> filter (applies r) (F.getProviders lib self r)).
Proof.
  intros Hnd. unfold F.getPreferences.
  by rewrite collect_reverse, contributors_distinct.
Qed.

(** The rule of X4 on a root with a [settings] and a [launch] file. *)
Lemma getPreferences_distinct_names_witness :
  NoDup (omap (nameFor Sample.configurations (Some "file:///ws/a.txt"))
           (F.getProviders Sample.lib two_names (Some "file:///ws/a.txt")))
  ∧ F.getPreferences Sample.lib Sample.configurations two_names
      (Some "file:///ws/a.txt")
    = ⋃ (P.getPreferences
           <$> filter (applies (Some "file:///ws/a.txt"))
                 (F.getProviders Sample.lib two_names (Some "file:///ws/a.txt"))).
Proof.
  assert (NoDup (omap (nameFor Sample.configurations (Some "file:///ws/a.txt"))
                   (F.getProviders Sample.lib two_names (Some "file:///ws/a.txt"))))
    as Hnd.
  { apply (bool_decide_unpack _). by vm_compute. }
  split; [exact Hnd|].
  exact (getPreferences_distinct_names Sample.lib Sample.configurations _ _ Hnd).
Defined.

(** The two candidates of that root, their names, and the conflict on the
    key both set: the earlier file wins in both readers. *)
Example two_names_conflict :
  let r := Some "file:///ws/a.txt" in
  F.getProviders Sample.lib two_names r = [theia_settings; theia_launch]
  ∧ omap (nameFor Sample.configurations r) (F.getProviders Sample.lib two_names r)
    = ["settings"; "launch"]
  ∧ P.getPreferences theia_settings !! "editor.tabSize" = Some (JNum 4)
  ∧ P.getPreferences theia_launch !! "editor.tabSize" = Some (JNum 2)
  ∧ F.getPreferences Sample.lib Sample.configurations two_names r
      !! "editor.tabSize" = Some (JNum 4)
  ∧ value (F.resolve Sample.lib two_names "editor.tabSize" r) = Some (JNum 4).
Proof. by vm_compute. Qed.

(** X5.  With coherent providers whose config names for the resource are
    pairwise different, the two readers agree: the value [resolve] gives
    for a setting is the entry of the setting in [getPreferences]. *)
Theorem resolve_agrees_with_getPreferences (lib : UriLib)
    (cfg : PreferenceConfigurations) (self : F.t) (name : string)
    (r : option string) :
  NoDup (omap (nameFor cfg r) (F.getProviders lib self r)) →
  Forall (coherent name r) (F.getProviders lib self r) →
  value (F.resolve lib self name r) = F.getPreferences lib cfg self r !! name.
Proof.
  intros Hnd Hco. unfold F.resolve, F.getPreferences.
  rewrite collect_reverse, contributors_distinct by done. simpl.
  by apply resolve_from_union.
Qed.

(** The rule of X5 on a root with a [settings] and a [launch] file. *)
Lemma resolve_agrees_with_getPreferences_witness :
  NoDup (omap (nameFor Sample.configurations (Some "file:///ws/a.txt"))
           (F.getProviders Sample.lib two_names (Some "file:///ws/a.txt")))
  ∧ Forall (coherent "editor.tabSize" (Some "file:///ws/a.txt"))
      (F.getProviders Sample.lib two_names (Some "file:///ws/a.txt"))
  ∧ value (F.resolve Sample.lib two_names "editor.tabSize" (Some "file:///ws/a.txt"))
    = F.getPreferences Sample.lib Sample.configurations two_names
        (Some "file:///ws/a.txt") !! "editor.tabSize".
Proof.
  assert (NoDup (omap (nameFor Sample.configurations (Some "file:///ws/a.txt"))
                   (F.getProviders Sample.lib two_names (Some "file:///ws/a.txt"))))
    as Hnd.
  { apply (bool_decide_unpack _). by vm_compute. }
  assert (Forall (coherent "editor.tabSize" (Some "file:///ws/a.txt"))
            (F.getProviders Sample.lib two_names (Some "file:///ws/a.txt"))) as Hco.
  { vm_compute. repeat constructor. }
  split; [exact Hnd | split; [exact Hco|]].
  exact (resolve_agrees_with_getPreferences Sample.lib Sample.configurations
           _ _ _ Hnd Hco).
Defined.

(** The second condition of X5 is needed: with two [settings] files the
    readers part ways, [resolve] reading the first and [getPreferences]
    the last. *)
Example readers_disagree_on_duplicate_names :
  value (F.resolve Sample.lib three_configs "editor.tabSize" (Some "file:///ws/a.txt"))
  = Some (JNum 4)
  ∧ F.getPreferences Sample.lib Sample.configurations three_configs
      (Some "file:///ws/a.txt") !! "editor.tabSize"
    = Some (JNum 2).
Proof. by vm_compute. Qed.

(** X6.  Without a resource URI ([undefined] or the empty string) the
    merged map is empty and a write returns [false] at once: no closure is
    queued and no provider is written to. *)
Theorem no_resource_no_preferences_no_write (lib : UriLib)
    (cfg : PreferenceConfigurations) (self : F.t) (name : string) (v : any) :
  F.getPreferences lib cfg self None = ∅
  ∧ F.getPreferences lib cfg self (Some "") = ∅
  ∧ F.setPreference lib cfg self name v None
    = {| F.result := Fulfilled false; F.attempts := []; F.calls := 0 |}
  ∧ F.setPreference lib cfg self name v (Some "")
    = {| F.result := Fulfilled false; F.attempts := []; F.calls := 0 |}.
Proof.
  split_and!; try done; unfold F.setPreference; simpl; by simp drain.
Qed.

(* ================================================================== *)
(** ** Further properties of write routing *)
(* ================================================================== *)

(** X7.  [setPreference] returns [false] exactly when the write to every
    candidate of the target config name resolves to [false], and then it
    has tried each of them once.  Otherwise its outcome is the outcome of
    the write to one of these candidates: [true], a rejection, or
    pending.  It writes to no provider outside these candidates. *)
Theorem setPreference_fails_iff_all_refuse (lib : UriLib)
    (cfg : PreferenceConfigurations) (self : F.t) (name : string) (v : any)
    (r : option string) :
  let matching :=
    filter (targets cfg (targetConfigName cfg name)) (F.getProviders lib self r) in
  let w := F.setPreference lib cfg self name v r in
  (F.result w = Fulfilled false
   ↔ Forall (λ p, P.setPreference p name v r = Fulfilled false) matching)
  ∧ Forall (λ p, p ∈ matching) (F.attempts w)
  ∧ ((F.result w = Fulfilled false ∧ F.attempts w ≡ₚ matching)
     ∨ (∃ p, p ∈ matching
             ∧ P.setPreference p name v r ≠ Fulfilled false
             ∧ F.result w = P.setPreference p name v r)).
Proof.
  intros matching w.
  pose proof (setPreference_outcome lib cfg self name v r) as Ho.
  cbv zeta in Ho. fold matching w in Ho.
  set (order := (filter (applies r) matching ++ _)) in Ho.
  assert (order ≡ₚ matching) as Hperm.
  { unfold order.
    rewrite (filter_app_complement (colocated cfg _) (filter _ matching)).
    apply filter_app_complement. }
  assert (F.result w = (try_in_order name v r order).1) as Hres by (by rewrite <- Ho).
  assert (F.attempts w = (try_in_order name v r order).2) as Hatt by (by rewrite <- Ho).
  rewrite Hres, Hatt, <- Hperm.
  destruct (try_in_order_cases name v r order)
    as [(H1 & H2 & H3)|(failed & p & rest & Hsplit & Hf & Hp & H2 & H1)].
  - rewrite H1, H2. split_and!.
    + done.
    + apply Forall_forall. intros q Hq. by rewrite <- Hperm.
    + left. by rewrite Hperm.
  - assert (p ∈ order) as Hin.
    { rewrite Hsplit. apply elem_of_app. right. by left. }
    rewrite H1, H2. split_and!.
    + split; [done|]. rewrite Forall_forall. intros Hall. exfalso.
      by apply Hp, Hall.
    + apply Forall_forall. intros q Hq. rewrite <- Hperm, Hsplit.
      apply elem_of_app in Hq as [Hq|Hq%list_elem_of_singleton].
      * apply elem_of_app. by left.
      * subst q. apply elem_of_app. right. by left.
    + right. exists p. split_and!; [by rewrite <- Hperm | done | done].
Qed.

(** X8.  The section of a preference name is the text before its first
    dot: it has no dot in it, and the name is the section alone or the
    section, a dot and some rest.  Taking the section twice changes
    nothing. *)
Theorem split_first_dot_prefix (s : string) :
  ("."%char ∉ list_ascii_of_string (split_first_dot s))
  ∧ (s = split_first_dot s ∨ ∃ rest, s = split_first_dot s +:+ ("." +:+ rest))
  ∧ split_first_dot (split_first_dot s) = split_first_dot s.
Proof.
  induction s as [|c s (IH1 & IH2 & IH3)]; simpl.
  - split_and!; [apply not_elem_of_nil | by left | done].
  - destruct (Ascii.eqb c ".") eqn:Hc; simpl.
    + apply Ascii.eqb_eq in Hc as ->.
      split_and!; [apply not_elem_of_nil | right; by exists s | done].
    + rewrite Hc. apply Ascii.eqb_neq in Hc. split_and!.
      * rewrite not_elem_of_cons. split; [congruence | done].
      * destruct IH2 as [Heq|[rest Heq]].
        -- left. by rewrite <- Heq.
        -- right. exists rest. by rewrite Heq at 1.
      * by rewrite IH3.
Qed.

(* ================================================================== *)
(** ** Further properties of [init] and of the registry as a whole *)
(* ================================================================== *)

(** X9.  While the initial enumeration of the roots is pending, and for
    good when it fails, [init] does nothing: no provider is created, the
    instance is as it was, and [ready] of a fresh instance stays
    pending. *)
Theorem init_waits_for_roots (lib : UriLib) (cfg : PreferenceConfigurations)
    (factory : FolderPreferenceProviderOptions → Provider)
    (ws : WorkspaceService) (self : F.t) :
  (∀ rs, roots ws ≠ Fulfilled rs) →
  F.init lib cfg factory ws self = self
  ∧ F.providers (F.init lib cfg factory ws F.fresh) = []
  ∧ F.ready (F.init lib cfg factory ws F.fresh) = Pending.
Proof.
  intros Hroots. unfold F.init.
  destruct (roots ws) as [|rs|e]; [done | by destruct (Hroots rs) | done].
Qed.

(** The rule of X9 on a workspace whose enumeration fails. *)
Lemma init_waits_for_roots_witness :
  (∀ rs, roots unreadable_workspace ≠ Fulfilled rs)
  ∧ F.init Sample.lib Sample.configurations Sample.factory unreadable_workspace
      F.fresh = F.fresh
  ∧ F.providers (F.init Sample.lib Sample.configurations Sample.factory
                   unreadable_workspace F.fresh) = []
  ∧ F.ready (F.init Sample.lib Sample.configurations Sample.factory
               unreadable_workspace F.fresh) = Pending.
Proof.
  assert (∀ rs, roots unreadable_workspace ≠ Fulfilled rs) as Hroots by done.
  split; [exact Hroots|].
  exact (init_waits_for_roots Sample.lib Sample.configurations Sample.factory
           unreadable_workspace F.fresh Hroots).
Defined.

(** X10.  When the workspace has no config URI at all (no root, or roots
    without config URIs), [init] leaves the provider map empty, whatever
    it held, and [ready] is resolved at once. *)
Theorem init_on_empty_universe (lib : UriLib) (cfg : PreferenceConfigurations)
    (factory : FolderPreferenceProviderOptions → Provider)
    (ws : WorkspaceService) (self : F.t) (rs : list FileStat) :
  roots ws = Fulfilled rs →
  universe lib cfg ws = [] →
  F.providers (F.init lib cfg factory ws self) = []
  ∧ F.ready (F.init lib cfg factory ws self) = Fulfilled tt
  ∧ F.getDomain ws (F.init lib cfg factory ws self) = uri <$> tryGetRoots ws.
Proof.
  intros Hroots Hempty. unfold F.init. rewrite Hroots.
  destruct (updateProviders_keeps_and_appends lib cfg factory ws (F.providers self))
    as [Hafter _].
  cbv zeta in Hafter. rewrite Hempty in Hafter. simpl in Hafter.
  rewrite app_nil_r in Hafter.
  assert (F.after (F.updateProviders lib cfg factory ws (F.providers self)) = [])
    as Hnone.
  { rewrite Hafter. apply elem_of_nil_inv. intros e [He _]%list_elem_of_filter.
    by apply elem_of_nil in He. }
  unfold F.ready. simpl. by rewrite Hnone.
Qed.

(** The rule of X10 on a workspace without roots. *)
Lemma init_on_empty_universe_witness :
  roots (Sample.workspace []) = Fulfilled []
  ∧ universe Sample.lib Sample.configurations (Sample.workspace []) = []
  ∧ F.providers (F.init Sample.lib Sample.configurations Sample.factory
                   (Sample.workspace []) before_change) = []
  ∧ F.ready (F.init Sample.lib Sample.configurations Sample.factory
               (Sample.workspace []) before_change) = Fulfilled tt
  ∧ F.getDomain (Sample.workspace [])
      (F.init Sample.lib Sample.configurations Sample.factory
         (Sample.workspace []) before_change)
    = uri <$> tryGetRoots (Sample.workspace []).
Proof.
  split; [reflexivity | split; [reflexivity|]].
  exact (init_on_empty_universe Sample.lib Sample.configurations Sample.factory
           (Sample.workspace []) before_change [] eq_refl eq_refl).
Defined.

(** X11.  Only the set of keys of the universe matters to a
    reconciliation of a reconciled map: after a run against one
    workspace, a run against a workspace with the same config URI keys,
    in whatever order of roots, creates nothing, disposes nothing and
    leaves the canonical order as it is. *)
Theorem updateProviders_ignores_reordering (lib : UriLib)
    (cfg : PreferenceConfigurations)
    (factory : FolderPreferenceProviderOptions → Provider)
    (ws ws' : WorkspaceService) (m : JsMap.t Provider) :
  (∀ k, k ∈ keyOf <$> universe lib cfg ws ↔ k ∈ keyOf <$> universe lib cfg ws') →
  let first := F.updateProviders lib cfg factory ws m in
  F.updateProviders lib cfg factory ws' (F.after first)
  = {| F.after := F.after first; F.created := []; F.disposed := [] |}.
Proof.
  intros Hsame first. apply updateProviders_again.
  intros k. rewrite <- Hsame. apply updateProviders_keys.
Qed.

(** The rule of X11 when the two roots change places. *)
Lemma updateProviders_ignores_reordering_witness :
  (∀ k, k ∈ keyOf <$> universe Sample.lib Sample.configurations
                        (Sample.workspace ["file:///a"; "file:///b"])
        ↔ k ∈ keyOf <$> universe Sample.lib Sample.configurations
                          (Sample.workspace ["file:///b"; "file:///a"]))
  ∧ (let first :=
       F.updateProviders Sample.lib Sample.configurations Sample.factory
         (Sample.workspace ["file:///a"; "file:///b"]) [] in
     F.updateProviders Sample.lib Sample.configurations Sample.factory
       (Sample.workspace ["file:///b"; "file:///a"]) (F.after first)
     = {| F.after := F.after first; F.created := []; F.disposed := [] |}).
Proof.
  assert (∀ k, k ∈ keyOf <$> universe Sample.lib Sample.configurations
                               (Sample.workspace ["file:///a"; "file:///b"])
               ↔ k ∈ keyOf <$> universe Sample.lib Sample.configurations
                                 (Sample.workspace ["file:///b"; "file:///a"]))
    as Hsame.
  { intros k. vm_compute universe. simpl. rewrite !elem_of_cons. tauto. }
  split; [exact Hsame|].
  exact (updateProviders_ignores_reordering Sample.lib Sample.configurations
           Sample.factory _ _ [] Hsame).
Defined.

(** After the roots have changed places the providers of [file:///a] still
    come first. *)
Example canonical_order_survives_reordering :
  JsMap.keys
    (F.providers
       (F.onWorkspaceChanged Sample.lib Sample.configurations Sample.factory
          (Sample.workspace ["file:///b"; "file:///a"]) two_roots_started))
  = ["file:///a/.theia/settings.json"; "file:///a/.vscode/settings.json";
     "file:///b/.theia/settings.json"; "file:///b/.vscode/settings.json"].
Proof. by vm_compute. Qed.
